(** * Cluster formation for the XMRT mesh network

    A shallow embedding of [core/meshnet/src/protocol/ClusterFormation.cpp]
    (namespace [xmrt::mesh], class [ClusterFormation]) and the properties of
    cluster formation, leader election, scoring and cluster optimisation.

    Conventions of the embedding.
    - [double] values are exact rationals ([Q]); rounding, infinities and NaN
      are outside the model.  Equalities between computed numbers are
      therefore stated with [==] ([Qeq]).
    - [std::vector<Device>] is [list Device.t]; an iterator or an element
      pointer into a vector is its index, [end()] is the length.
    - A call that may throw or run into undefined behaviour returns an
      [outcome].
    - [std::sort] is a parameter of [formCluster].  General statements take
      any function that meets the contract of the C++ standard; concrete
      runs use the implementation of libstdc++, transcribed below.
    - The system clock and the random device are read from a [Host] record
      that the caller supplies. *)

From Stdlib Require Import QArith Qminmax Lqa Lia.
From Stdlib Require Import Sorting.Sorted Sorting.Permutation.
From stdpp Require Import list sorting strings pretty.

(** ** Numbers *)

(** [a > b] and [a < b] on doubles, as booleans. *)
Definition Qgtb (a b : Q) : bool :=
  match (a ?= b)%Q with Gt => true | _ => false end.

Definition Qltb (a b : Q) : bool :=
  match (a ?= b)%Q with Lt => true | _ => false end.

(** ** Data model *)

Module Device.
(** Modelled from the spec: [struct Device] is declared in ClusterFormation.h,
    which is not among the sources.  The fields are exactly those the .cpp
    file reads; the numeric ones are numbers that convert to [double]. *)
Record t : Type := mk {
  id : string;
  rssi : Q;
  batteryLevel : Q;
  connectionStability : Q;
  cpuCores : Q;
  ramGB : Q;
  storageGB : Q;
  supports5G : bool;
  supportsWiFi6 : bool;
  supportsWiFi5 : bool
}.
End Device.

Module Cluster.
(** Modelled from the spec: [struct Cluster] is declared in ClusterFormation.h,
    which is not among the sources.  The fields are those the .cpp file
    assigns. *)
Record t : Type := mk {
  id : string;
  leader : Device.t;
  members : list Device.t;
  formationTime : Z;
  maxSize : nat;
  averageRssi : Q;
  totalBatteryLevel : Q
}.
End Cluster.

(** [std::invalid_argument], the only exception the file throws. *)
Inductive exception : Type :=
| invalid_argument (what : string).

(** The result of a call: a value, an exception, or undefined behaviour
    (an access outside a vector, a null pointer dereferenced). *)
Inductive outcome (A : Type) : Type :=
| Returned (a : A)
| Thrown (e : exception)
| Undefined.
Arguments Returned {A} a.
Arguments Thrown {A} e.
Arguments Undefined {A}.

(** What one call of [formCluster] reads from its surroundings: the clock in
    [generateClusterId] (milliseconds since the epoch), the draw of the
    uniform distribution there, and the clock read for [formationTime]. *)
Record Host : Type := {
  id_timestamp : Z;
  id_random : Z;
  formation_now : Z
}.

(** ** The algorithms of [<algorithm>] the file calls *)

Section Algorithm.
Context {A : Type}.

(** [std::find_if]: the index of the first element that satisfies [pred],
    the length of the vector ([end()]) when there is none. *)
Fixpoint find_if (pred : A -> bool) (v : list A) : nat :=
  match v with
  | [] => 0
  | x :: v' => if pred x then 0 else S (find_if pred v')
  end.

(** The loop of [std::remove_if]: [first] reads, [result] writes; an element
    that is kept is moved down to [result]. *)
Fixpoint remove_if_loop (pred : A -> bool) (fuel first result : nat)
    (v : list A) : list A * nat :=
  match fuel with
  | O => (v, result)
  | S fuel' =>
      match v !! first with
      | None => (v, result)
      | Some x =>
          if pred x
          then remove_if_loop pred fuel' (S first) result v
          else remove_if_loop pred fuel' (S first) (S result) (<[result := x]> v)
      end
  end.

(** [std::remove_if]: the vector after the kept elements were moved to its
    front, and the new logical end. *)
Definition remove_if (pred : A -> bool) (v : list A) : list A * nat :=
  let first := find_if pred v in
  if (first =? length v)%nat then (v, first)
  else remove_if_loop pred (length v - S first) (S first) first v.

(** [vector::erase(first, last)]. *)
Definition erase (v : list A) (first last : nat) : list A :=
  take first v ++ drop last v.

(** [vector::resize(n)] to a smaller size. *)
Definition resize (v : list A) (n : nat) : list A := take n v.

(** [comp] is a strict weak ordering, what [std::sort] requires of it. *)
Definition strict_weak_ordering (comp : A -> A -> bool) : Prop :=
  (forall a, comp a a = false) /\
  (forall a b c, comp a b = true -> comp b c = true -> comp a c = true) /\
  (forall a b c,
      comp a b = false -> comp b a = false ->
      comp b c = false -> comp c b = false ->
      comp a c = false /\ comp c a = false).

(** A vector is sorted with respect to [comp]: no later element goes before
    an earlier one. *)
Definition sorted_wrt (comp : A -> A -> bool) (v : list A) : Prop :=
  StronglySorted (fun a b => comp b a = false) v.

(** What the C++ standard promises of [std::sort]: the result is a
    rearrangement of the input, sorted with respect to [comp].  The order of
    equivalent elements is left open. *)
Definition std_sort_contract
    (sort : (A -> A -> bool) -> list A -> list A) : Prop :=
  forall comp v,
    strict_weak_ordering comp ->
    Permutation v (sort comp v) /\ sorted_wrt comp (sort comp v).

(** Two sorting functions that meet the contract: a stable insertion sort,
    which puts an element before the equivalent ones that follow it in the
    input, and the merge sort of stdpp. *)
Fixpoint insert_before (comp : A -> A -> bool) (x : A) (v : list A) : list A :=
  match v with
  | [] => [x]
  | y :: v' => if comp y x then y :: insert_before comp x v' else x :: v
  end.

Definition insertion_sort (comp : A -> A -> bool) (v : list A) : list A :=
  foldr (insert_before comp) [] v.

Definition library_merge_sort (comp : A -> A -> bool) (v : list A) : list A :=
  @merge_sort A (fun a b => comp b a = false)
              (fun a b => decide (comp b a = false)) v.

End Algorithm.

(** ** [std::sort] as libstdc++ implements it

    The introsort of GCC's libstdc++ ([bits/stl_algo.h], [bits/stl_heap.h]),
    function by function: quicksort with a median-of-three pivot down to
    ranges of 16 elements, heap sort when the depth limit is used up, and a
    final insertion sort.  Positions are offsets into the vector. *)

Module Libstdcxx.
Section Sort.
Context {A : Type}.
Variable comp : A -> A -> bool.

(** [comp(i, j)] on the elements at two positions.  A read outside the
    vector is undefined in C++; here it compares as false, which ends every
    loop. *)
Definition comp_iter (v : list A) (i j : nat) : bool :=
  match v !! i, v !! j with
  | Some x, Some y => comp x y
  | _, _ => false
  end.

(** The element at [src] is moved to position [dst]. *)
Definition assign (v : list A) (dst src : nat) : list A :=
  match v !! src with
  | Some x => <[dst := x]> v
  | None => v
  end.

(** [std::iter_swap] *)
Definition iter_swap (v : list A) (i j : nat) : list A :=
  match v !! i, v !! j with
  | Some x, Some y => <[j := x]> (<[i := y]> v)
  | _, _ => v
  end.

(** [__move_median_to_first] *)
Definition move_median_to_first (v : list A) (result a b c : nat) : list A :=
  if comp_iter v a b then
    if comp_iter v b c then iter_swap v result b
    else if comp_iter v a c then iter_swap v result c
    else iter_swap v result a
  else if comp_iter v a c then iter_swap v result a
  else if comp_iter v b c then iter_swap v result c
  else iter_swap v result b.

(** [while (__comp(__first, __pivot)) ++__first;] *)
Fixpoint advance_first (fuel : nat) (v : list A) (first pivot : nat) : nat :=
  match fuel with
  | O => first
  | S fuel' =>
      if comp_iter v first pivot then advance_first fuel' v (S first) pivot
      else first
  end.

(** [while (__comp(__pivot, __last)) --__last;] *)
Fixpoint retreat_last (fuel : nat) (v : list A) (pivot last : nat) : nat :=
  match fuel with
  | O => last
  | S fuel' =>
      if comp_iter v pivot last then retreat_last fuel' v pivot (pred last)
      else last
  end.

(** [__unguarded_partition] *)
Fixpoint unguarded_partition (fuel : nat) (v : list A) (first last pivot : nat)
    : list A * nat :=
  match fuel with
  | O => (v, first)
  | S fuel' =>
      let first := advance_first (length v) v first pivot in
      let last := pred last in
      let last := retreat_last (length v) v pivot last in
      if negb (first <? last) then (v, first)
      else unguarded_partition fuel' (iter_swap v first last) (S first) last pivot
  end.

(** [__unguarded_partition_pivot] *)
Definition unguarded_partition_pivot (v : list A) (first last : nat)
    : list A * nat :=
  let mid := first + (last - first) / 2 in
  let v := move_median_to_first v first (first + 1) mid (last - 1) in
  unguarded_partition (length v) v (first + 1) last first.

(** [__push_heap] *)
Fixpoint push_heap (fuel : nat) (v : list A) (first holeIndex topIndex : nat)
    (value : A) : list A :=
  match fuel with
  | O => <[first + holeIndex := value]> v
  | S fuel' =>
      let parent := (holeIndex - 1) / 2 in
      if (topIndex <? holeIndex)
         && match v !! (first + parent) with
            | Some p => comp p value
            | None => false
            end
      then push_heap fuel' (assign v (first + holeIndex) (first + parent))
                     first parent topIndex value
      else <[first + holeIndex := value]> v
  end.

(** The first loop of [__adjust_heap]. *)
Fixpoint adjust_heap_loop (fuel : nat) (v : list A) (first len : nat)
    (holeIndex secondChild : nat) : list A * nat * nat :=
  match fuel with
  | O => (v, holeIndex, secondChild)
  | S fuel' =>
      if secondChild <? (len - 1) / 2 then
        let secondChild := 2 * (secondChild + 1) in
        let secondChild :=
          if comp_iter v (first + secondChild) (first + (secondChild - 1))
          then secondChild - 1 else secondChild in
        adjust_heap_loop fuel' (assign v (first + holeIndex) (first + secondChild))
                         first len secondChild secondChild
      else (v, holeIndex, secondChild)
  end.

(** [__adjust_heap].  [__len - 2] is negative for a length below 2 and is
    then the index of no child. *)
Definition adjust_heap (v : list A) (first holeIndex len : nat) (value : A)
    : list A :=
  let topIndex := holeIndex in
  let '(v, holeIndex, secondChild) :=
    adjust_heap_loop len v first len holeIndex holeIndex in
  let '(v, holeIndex) :=
    if Nat.even len && (2 <=? len) && (secondChild =? (len - 2) / 2) then
      let secondChild := 2 * (secondChild + 1) in
      (assign v (first + holeIndex) (first + (secondChild - 1)), secondChild - 1)
    else (v, holeIndex) in
  push_heap len v first holeIndex topIndex value.

(** [__pop_heap] *)
Definition pop_heap (v : list A) (first last result : nat) : list A :=
  match v !! result with
  | Some value => adjust_heap (assign v result first) first 0 (last - first) value
  | None => v
  end.

(** [__make_heap] *)
Definition make_heap (v : list A) (first last : nat) : list A :=
  if last - first <? 2 then v
  else
    let len := last - first in
    fold_left
      (fun v parent =>
         match v !! (first + parent) with
         | Some value => adjust_heap v first parent len value
         | None => v
         end)
      (rev (seq 0 (S ((len - 2) / 2)))) v.

(** [__heap_select] *)
Definition heap_select (v : list A) (first middle last : nat) : list A :=
  fold_left
    (fun v i => if comp_iter v i first then pop_heap v first middle i else v)
    (seq middle (last - middle)) (make_heap v first middle).

(** [__sort_heap] *)
Definition sort_heap (v : list A) (first last : nat) : list A :=
  fold_left (fun v last' => pop_heap v first last' last')
            (rev (seq (first + 1) (last - first - 1))) v.

(** [__partial_sort] *)
Definition partial_sort (v : list A) (first middle last : nat) : list A :=
  sort_heap (heap_select v first middle last) first middle.

(** The loop of [__unguarded_linear_insert]; stepping before the first
    element, undefined in C++, ends it. *)
Fixpoint unguarded_linear_insert_loop (fuel : nat) (v : list A) (val : A)
    (last : nat) : list A :=
  match fuel with
  | O => <[last := val]> v
  | S fuel' =>
      match last with
      | O => <[last := val]> v
      | S next =>
          match v !! next with
          | Some y =>
              if comp val y
              then unguarded_linear_insert_loop fuel' (<[last := y]> v) val next
              else <[last := val]> v
          | None => <[last := val]> v
          end
      end
  end.

(** [__unguarded_linear_insert] *)
Definition unguarded_linear_insert (v : list A) (last : nat) : list A :=
  match v !! last with
  | Some val => unguarded_linear_insert_loop (length v) v val last
  | None => v
  end.

(** [std::move_backward(first, last, d_last)] *)
Definition move_backward (v : list A) (first last d_last : nat) : list A :=
  fold_left (fun v k => assign v (d_last - (last - k)) k)
            (rev (seq first (last - first))) v.

(** [__insertion_sort] *)
Definition insertion_sort (v : list A) (first last : nat) : list A :=
  fold_left
    (fun v i =>
       if comp_iter v i first then
         match v !! i with
         | Some val => <[first := val]> (move_backward v first i (i + 1))
         | None => v
         end
       else unguarded_linear_insert v i)
    (seq (first + 1) (last - first - 1)) v.

(** [__unguarded_insertion_sort] *)
Definition unguarded_insertion_sort (v : list A) (first last : nat) : list A :=
  fold_left unguarded_linear_insert (seq first (last - first)) v.

(** [_S_threshold] *)
Definition S_threshold : nat := 16.

(** [__final_insertion_sort] *)
Definition final_insertion_sort (v : list A) (first last : nat) : list A :=
  if S_threshold <? last - first then
    unguarded_insertion_sort
      (insertion_sort v first (first + S_threshold)) (first + S_threshold) last
  else insertion_sort v first last.

(** [__introsort_loop]: every turn of the loop and every recursive call
    takes one from [depth_limit]. *)
Fixpoint introsort_loop (depth_limit : nat) (v : list A) (first last : nat)
    : list A :=
  if S_threshold <? last - first then
    match depth_limit with
    | O => partial_sort v first last last
    | S depth_limit' =>
        let '(v, cut) := unguarded_partition_pivot v first last in
        let v := introsort_loop depth_limit' v cut last in
        introsort_loop depth_limit' v first cut
    end
  else v.

(** [std::sort(first, last, comp)] over the whole vector. *)
Definition sort (v : list A) : list A :=
  match v with
  | [] => v
  | _ =>
      let last := length v in
      final_insertion_sort (introsort_loop (Nat.log2 last * 2) v 0 last) 0 last
  end.

End Sort.
End Libstdcxx.

(** ** The class [ClusterFormation] *)

Module ClusterFormation.
Import Device.
Local Open Scope Q_scope.

(** [calculateCapabilityScore] *)
Definition calculateCapabilityScore (device : Device.t) : Q :=
  let score := 0.0 in
  let score := score + Qmin 1.0 (cpuCores device / 8.0) * 0.3 in
  let score := score + Qmin 1.0 (ramGB device / 16.0) * 0.3 in
  let score := score + Qmin 1.0 (storageGB device / 512.0) * 0.2 in
  let score :=
    if supports5G device then score + 0.2
    else if supportsWiFi6 device then score + 0.15
    else if supportsWiFi5 device then score + 0.1
    else score in
  Qmin 1.0 score.

(** [calculateLeadershipScore] *)
Definition calculateLeadershipScore (device : Device.t) : Q :=
  let BATTERY_WEIGHT := 0.4 in
  let RSSI_WEIGHT := 0.3 in
  let STABILITY_WEIGHT := 0.2 in
  let CAPABILITY_WEIGHT := 0.1 in
  let batteryScore := batteryLevel device / 100.0 in
  let rssiScore := Qmax 0.0 ((rssi device + 100.0) / 100.0) in
  let stabilityScore := connectionStability device in
  let capabilityScore := calculateCapabilityScore device in
  (batteryScore * BATTERY_WEIGHT) +
  (rssiScore * RSSI_WEIGHT) +
  (stabilityScore * STABILITY_WEIGHT) +
  (capabilityScore * CAPABILITY_WEIGHT).

(** The [for] loop of [electLeader] from position [i] on, with the loop's
    two variables. *)
Fixpoint electLeader_loop (devices : list Device.t) (i : nat)
    (bestCandidate : option nat) (bestScore : Q) : option nat :=
  match devices with
  | [] => bestCandidate
  | device :: rest =>
      let score := calculateLeadershipScore device in
      if Qgtb score bestScore
      then electLeader_loop rest (S i) (Some i) score
      else electLeader_loop rest (S i) bestCandidate bestScore
  end.

(** [electLeader]: a pointer to the elected element ([Some] of its index), or
    [nullptr] ([None]). *)
Definition electLeader (devices : list Device.t) : option nat :=
  match devices with
  | [] => None
  | _ => electLeader_loop devices 0 None (-1.0)
  end.

(** [generateClusterId] *)
Definition generateClusterId (host : Host) : string :=
  "cluster_" +:+ pretty (id_timestamp host) +:+ "_" +:+ pretty (id_random host).

(** [calculateAverageRssi].  The sum and the quotient are exact here; the
    program rounds each addition and the division to a [double]. *)
Definition calculateAverageRssi (members : list Device.t) : Q :=
  match members with
  | [] => 0.0
  | _ =>
      let sum := fold_left (fun sum device => sum + rssi device) members 0.0 in
      sum / inject_Z (Z.of_nat (length members))
  end.

(** [calculateTotalBattery].  The sum is exact here; the program rounds
    each addition to a [double]. *)
Definition calculateTotalBattery (members : list Device.t) : Q :=
  fold_left (fun total device => total + batteryLevel device) members 0.0.

Section Members.
(** [std::sort], known by its contract only. *)
Variable std_sort :
  (Device.t -> Device.t -> bool) -> list Device.t -> list Device.t.

(** Modelled from the spec: [MIN_BATTERY_THRESHOLD] is a constant of
    ClusterFormation.h, which is not among the sources; the spec calls it a
    fixed minimum battery threshold and gives no value. *)
Variable MIN_BATTERY_THRESHOLD : Q.

(** The comparison [formCluster] sorts with. *)
Definition by_rssi_desc (a b : Device.t) : bool := Qgtb (rssi a) (rssi b).

(** [formCluster] *)
Definition formCluster (host : Host) (devices : list Device.t)
    (maxClusterSize : nat) : outcome Cluster.t :=
  match devices with
  | [] => Thrown (invalid_argument "Cannot form cluster with empty device list")
  | _ =>
      let sortedDevices := std_sort by_rssi_desc devices in
      let sortedDevices :=
        if (maxClusterSize <? length sortedDevices)%nat
        then resize sortedDevices maxClusterSize
        else sortedDevices in
      let leader := electLeader sortedDevices in
      let chosen :=
        match leader with
        | Some i => sortedDevices !! i
        | None => sortedDevices !! 0%nat
        end in
      match chosen with
      | None => Undefined
      | Some leaderDevice =>
          Returned
            {| Cluster.id := generateClusterId host;
               Cluster.leader := leaderDevice;
               Cluster.members := sortedDevices;
               Cluster.formationTime := formation_now host;
               Cluster.maxSize := maxClusterSize;
               Cluster.averageRssi := calculateAverageRssi sortedDevices;
               Cluster.totalBatteryLevel := calculateTotalBattery sortedDevices |}
      end
  end.

(** The members [optimizeCluster] keeps: the erase-remove idiom with the
    low-battery predicate. *)
Definition low_battery (device : Device.t) : bool :=
  Qltb (batteryLevel device) MIN_BATTERY_THRESHOLD.

Definition prune (members : list Device.t) : list Device.t :=
  let '(moved, new_end) := remove_if low_battery members in
  erase moved new_end (length moved).

(** [optimizeCluster] *)
Definition optimizeCluster (cluster : Cluster.t) : outcome Cluster.t :=
  let members := prune (Cluster.members cluster) in
  let leaderIt :=
    find_if (fun device => String.eqb (id device) (id (Cluster.leader cluster)))
            members in
  let reelected : outcome Device.t :=
    if (leaderIt =? length members)%nat && negb (length members =? 0)%nat
    then
      match electLeader members with
      | Some i =>
          match members !! i with
          | Some newLeader => Returned newLeader
          | None => Undefined
          end
      | None => Returned (Cluster.leader cluster)
      end
    else Returned (Cluster.leader cluster) in
  match reelected with
  | Returned leader =>
      Returned
        {| Cluster.id := Cluster.id cluster;
           Cluster.leader := leader;
           Cluster.members := members;
           Cluster.formationTime := Cluster.formationTime cluster;
           Cluster.maxSize := Cluster.maxSize cluster;
           Cluster.averageRssi := calculateAverageRssi members;
           Cluster.totalBatteryLevel := calculateTotalBattery members |}
  | Thrown e => Thrown e
  | Undefined => Undefined
  end.

End Members.
End ClusterFormation.

(** ** The specification's vocabulary *)

Module Spec.
Import Device.
Local Open Scope Q_scope.

(** The network bonus as the specification words it: one tier, in the
    priority order 5G, WiFi 6, WiFi 5. *)
Definition network_bonus (d : Device.t) : Q :=
  if supports5G d then 0.2
  else if supportsWiFi6 d then 0.15
  else if supportsWiFi5 d then 0.1
  else 0.

(** The capability score as the specification words it. *)
Definition capability (d : Device.t) : Q :=
  Qmin 1 (0.3 * Qmin 1 (cpuCores d / 8)
          + 0.3 * Qmin 1 (ramGB d / 16)
          + 0.2 * Qmin 1 (storageGB d / 512)
          + network_bonus d).

(** The leadership score as the specification words it. *)
Definition leadership_score (d : Device.t) : Q :=
  0.4 * (batteryLevel d / 100)
  + 0.3 * Qmax 0 ((rssi d + 100) / 100)
  + 0.2 * connectionStability d
  + 0.1 * capability d.

(** Sum and arithmetic mean of a list of numbers, the mean of no number
    being 0. *)
Definition sum (xs : list Q) : Q := foldr Qplus 0 xs.

Definition mean (xs : list Q) : Q :=
  match xs with
  | [] => 0
  | _ => sum xs / inject_Z (Z.of_nat (length xs))
  end.

(** The input factors of the leadership score. *)
Inductive factor : Type :=
| BatteryLevel | Rssi | ConnectionStability | CpuCores | RamGB | StorageGB.

Definition factor_get (f : factor) (d : Device.t) : Q :=
  match f with
  | BatteryLevel => batteryLevel d
  | Rssi => rssi d
  | ConnectionStability => connectionStability d
  | CpuCores => cpuCores d
  | RamGB => ramGB d
  | StorageGB => storageGB d
  end.

(** [factor_set f x d] is [d] with factor [f] changed to [x] and every other
    field as it was. *)
Definition factor_set (f : factor) (x : Q) (d : Device.t) : Device.t :=
  match f with
  | BatteryLevel =>
      mk (id d) (rssi d) x (connectionStability d) (cpuCores d) (ramGB d)
         (storageGB d) (supports5G d) (supportsWiFi6 d) (supportsWiFi5 d)
  | Rssi =>
      mk (id d) x (batteryLevel d) (connectionStability d) (cpuCores d) (ramGB d)
         (storageGB d) (supports5G d) (supportsWiFi6 d) (supportsWiFi5 d)
  | ConnectionStability =>
      mk (id d) (rssi d) (batteryLevel d) x (cpuCores d) (ramGB d)
         (storageGB d) (supports5G d) (supportsWiFi6 d) (supportsWiFi5 d)
  | CpuCores =>
      mk (id d) (rssi d) (batteryLevel d) (connectionStability d) x (ramGB d)
         (storageGB d) (supports5G d) (supportsWiFi6 d) (supportsWiFi5 d)
  | RamGB =>
      mk (id d) (rssi d) (batteryLevel d) (connectionStability d) (cpuCores d) x
         (storageGB d) (supports5G d) (supportsWiFi6 d) (supportsWiFi5 d)
  | StorageGB =>
      mk (id d) (rssi d) (batteryLevel d) (connectionStability d) (cpuCores d)
         (ramGB d) x (supports5G d) (supportsWiFi6 d) (supportsWiFi5 d)
  end.

(** Two devices agree on every field except, possibly, factor [f]. *)
Definition agree_except (f : factor) (d1 d2 : Device.t) : Prop :=
  d2 = factor_set f (factor_get f d2) d1.

(** The documented domains of a device's fields. *)
Definition in_documented_domain (d : Device.t) : Prop :=
  0 <= batteryLevel d <= 100 /\
  0 <= connectionStability d <= 1 /\
  0 < cpuCores d /\ 0 < ramGB d /\ 0 < storageGB d.

(** A vector is in descending order of rssi. *)
Definition descending_rssi (v : list Device.t) : Prop :=
  StronglySorted (fun a b => rssi b <= rssi a) v.

(** Stable tie handling: two members of equal rssi stand in [members] in the
    order in which they stand in [input]. *)
Definition ties_in_input_order (input members : list Device.t) : Prop :=
  forall i j a b,
    (i < j)%nat -> members !! i = Some a -> members !! j = Some b ->
    rssi a == rssi b ->
    exists i' j', (i' < j')%nat /\ input !! i' = Some a /\ input !! j' = Some b.

(** Device [d] at position [k] of [devices] is the first maximum: its score
    is above that of every earlier device and not below that of any later
    one. *)
Definition first_maximum (devices : list Device.t) (k : nat) (d : Device.t)
    : Prop :=
  devices !! k = Some d /\
  (forall j e, (j < k)%nat -> devices !! j = Some e ->
     ClusterFormation.calculateLeadershipScore e
     < ClusterFormation.calculateLeadershipScore d) /\
  (forall j e, (k < j)%nat -> devices !! j = Some e ->
     ClusterFormation.calculateLeadershipScore e
     <= ClusterFormation.calculateLeadershipScore d).

(** The members whose battery level is at or above [threshold], in their
    order. *)
Definition survivors (threshold : Q) (members : list Device.t)
    : list Device.t :=
  List.filter (fun d => Qle_bool threshold (batteryLevel d)) members.

(** The metrics of a cluster are those of its members: the mean of their
    rssi and the sum of their battery levels, both 0 when there is none. *)
Definition metrics_consistent (c : Cluster.t) : Prop :=
  Cluster.averageRssi c == mean (map rssi (Cluster.members c)) /\
  Cluster.totalBatteryLevel c == sum (map batteryLevel (Cluster.members c)) /\
  (Cluster.members c = [] ->
   Cluster.averageRssi c == 0 /\ Cluster.totalBatteryLevel c == 0).

(** The leader is one of the members, by identity. *)
Definition leader_among_members (c : Cluster.t) : Prop :=
  exists m, m ∈ Cluster.members c /\ id m = id (Cluster.leader c).

End Spec.

(** ** Sample data *)

Module Sample.
Local Open Scope Q_scope.

Definition host : Host :=
  {| id_timestamp := 1700000000000; id_random := 4242;
     formation_now := 1700000000001 |}.

(** The devices of the specification's example. *)
Definition A : Device.t := Device.mk "A" (-40) 90 0.5 4 4 64 false false true.
Definition B : Device.t := Device.mk "B" (-30) 20 0.5 4 4 64 false false true.
Definition C : Device.t := Device.mk "C" (-80) 95 0.5 4 4 64 false false true.

(** Two devices of equal rssi. *)
Definition P : Device.t := Device.mk "P" (-50) 80 0.5 4 4 64 false false false.
Definition R : Device.t := Device.mk "R" (-50) 60 0.5 4 4 64 false false false.

(** [R] with the battery level of [P]. *)
Definition R_charged : Device.t :=
  Device.mk "R" (-50) 80 0.5 4 4 64 false false false.

(** A device of low capability and low battery. *)
Definition weak : Device.t :=
  Device.mk "W" (-90) 5 0.1 1 1 16 false false false.

(** A device whose capability metrics are at their caps. *)
Definition octa : Device.t :=
  Device.mk "O" (-40) 90 0.5 8 16 512 false false false.

(** A device whose connection stability lies far outside [0, 1]. *)
Definition unstable : Device.t :=
  Device.mk "U" (-100) 50 (-10) 0 0 0 false false false.

(** [n] devices of equal rssi, named T0, T1, ... in this order. *)
Definition tied (n : nat) : list Device.t :=
  map (fun i : nat =>
         Device.mk ("T" +:+ pretty i) (-50) 80 0.5 4 4 64 false false false)
      (seq 0 n).

(** A cluster of [A], [B], [C] led by [B]. *)
Definition abc : Cluster.t :=
  Cluster.mk "cluster_0_1000" B [B; A; C] 0 4 (-50) 205.

End Sample.

(** ** Vocabulary of the further properties *)

(** Character [c] occurs in string [s]. *)
Fixpoint occurs (c : Ascii.ascii) (s : string) : bool :=
  match s with
  | EmptyString => false
  | String a s' => Ascii.eqb a c || occurs c s'
  end.

(** No two devices of the vector have the same rssi. *)
Definition distinct_rssi (v : list Device.t) : Prop :=
  NoDup (map (fun d => Qred (Device.rssi d)) v).

(** The normalisation cap of a capability metric: 8 cores, 16 GB of RAM,
    512 GB of storage. *)
Definition capability_cap (f : Spec.factor) : option Q :=
  match f with
  | Spec.CpuCores => Some 8%Q
  | Spec.RamGB => Some 16%Q
  | Spec.StorageGB => Some 512%Q
  | _ => None
  end.

(** * Properties *)

(** ** Comparisons *)

Lemma Qgtb_true (a b : Q) : Qgtb a b = true <-> (b < a)%Q.
Proof.
  unfold Qgtb. rewrite Qgt_alt.
  destruct (a ?= b)%Q; split; congruence.
Qed.

Lemma Qgtb_false (a b : Q) : Qgtb a b = false <-> (a <= b)%Q.
Proof.
  unfold Qgtb. rewrite Qle_alt.
  destruct (a ?= b)%Q; split; congruence.
Qed.

Lemma Qltb_true (a b : Q) : Qltb a b = true <-> (a < b)%Q.
Proof.
  unfold Qltb. rewrite Qlt_alt.
  destruct (a ?= b)%Q; split; congruence.
Qed.

Lemma Qltb_false (a b : Q) : Qltb a b = false <-> (b <= a)%Q.
Proof.
  unfold Qltb. rewrite Qge_alt.
  destruct (a ?= b)%Q; split; congruence.
Qed.

(** ** [find_if], [remove_if] and [erase] *)

Section AlgorithmFacts.
Context {A : Type}.
Implicit Types (pred : A -> bool) (v : list A).

Lemma find_if_le pred v : find_if pred v <= length v.
Proof. induction v as [|x v IH]; simpl; [lia|]. destruct (pred x); lia. Qed.

(** [find_if] stops at an element that satisfies the predicate, and at no
    element before it. *)
Lemma find_if_found pred v :
  find_if pred v < length v ->
  exists x, v !! find_if pred v = Some x /\ pred x = true.
Proof.
  induction v as [|x v IH]; simpl; [lia|].
  destruct (pred x) eqn:E; [eauto|].
  intros H. apply IH. lia.
Qed.

Lemma find_if_before pred v i x :
  i < find_if pred v -> v !! i = Some x -> pred x = false.
Proof.
  revert i. induction v as [|y v IH]; intros i; simpl; [lia|].
  destruct (pred y) eqn:E; [lia|].
  destruct i as [|i]; simpl.
  - intros _ [= <-]. exact E.
  - intros H. apply IH. lia.
Qed.

Lemma find_if_end pred v :
  find_if pred v = length v <-> Forall (fun x => pred x = false) v.
Proof.
  induction v as [|x v IH]; simpl.
  - split; [constructor|reflexivity].
  - destruct (pred x) eqn:E.
    + split; [discriminate|]. intros H. inversion H; congruence.
    + rewrite Forall_cons. split.
      * intros [= H]. split; [exact E|]. apply IH, H.
      * intros [_ H]. f_equal. apply IH, H.
Qed.

Lemma filter_keeps_all (keep : A -> bool) v :
  Forall (fun x => keep x = true) v -> List.filter keep v = v.
Proof.
  induction 1 as [|x v Hx _ IH]; simpl; [reflexivity|].
  rewrite Hx, IH. reflexivity.
Qed.

Lemma filter_take_find_if pred v :
  List.filter (fun x => negb (pred x)) (take (find_if pred v) v)
  = take (find_if pred v) v.
Proof.
  apply filter_keeps_all, Forall_lookup_2. intros i x Hi.
  apply lookup_take_Some in Hi as [Hx Hlt].
  rewrite (find_if_before pred v i x Hlt Hx). reflexivity.
Qed.

(** The loop of [remove_if] keeps this invariant: the elements kept so far
    stand before [result], the elements not yet read are untouched. *)
Lemma remove_if_loop_spec pred v0 fuel :
  forall first result v,
    result <= first ->
    first + fuel = length v0 ->
    length v = length v0 ->
    take result v = List.filter (fun x => negb (pred x)) (take first v0) ->
    drop first v = drop first v0 ->
    let r := remove_if_loop pred fuel first result v in
    take (snd r) (fst r) = List.filter (fun x => negb (pred x)) v0
    /\ length (fst r) = length v0
    /\ snd r <= length v0.
Proof.
  induction fuel as [|fuel IH]; intros first result v Hle Hfuel Hlen Htake Hdrop.
  - simpl. rewrite Htake.
    rewrite take_ge by lia. split; [reflexivity|]. split; [exact Hlen|lia].
  - simpl.
    assert (Hlt : first < length v) by lia.
    destruct (lookup_lt_is_Some_2 v first Hlt) as [x Hx].
    rewrite Hx.
    assert (Hx0 : v0 !! first = Some x).
    { rewrite <- (Nat.add_0_r first), <- lookup_drop, <- Hdrop, lookup_drop,
        Nat.add_0_r. exact Hx. }
    assert (Hfilter : List.filter (fun y => negb (pred y)) (take (S first) v0)
                      = List.filter (fun y => negb (pred y)) (take first v0)
                        ++ (if pred x then [] else [x])).
    { rewrite (take_S_r _ _ _ Hx0), List.filter_app. simpl.
      destruct (pred x); reflexivity. }
    assert (Hdrop' : drop (S first) v = drop (S first) v0).
    { replace (S first) with (first + 1) by lia.
      rewrite <- !drop_drop, Hdrop. reflexivity. }
    destruct (pred x) eqn:Hp.
    + apply IH; try lia; try assumption.
      rewrite Hfilter, app_nil_r. exact Htake.
    + apply IH; try lia.
      * rewrite length_insert. exact Hlen.
      * rewrite Hfilter, <- Htake.
        rewrite (take_S_r (<[result:=x]> v) result x).
        -- rewrite take_insert_ge by lia. reflexivity.
        -- apply list_lookup_insert_eq. lia.
      * rewrite drop_insert_lt by lia. exact Hdrop'.
Qed.

(** [remove_if] followed by [erase] up to the end is the filter that keeps
    the elements not satisfying the predicate, in their order. *)
Lemma erase_remove_if pred v :
  erase (fst (remove_if pred v)) (snd (remove_if pred v))
        (length (fst (remove_if pred v)))
  = List.filter (fun x => negb (pred x)) v.
Proof.
  unfold erase. rewrite drop_all, app_nil_r.
  unfold remove_if.
  destruct (Nat.eqb_spec (find_if pred v) (length v)) as [He|Hne]; simpl.
  - rewrite He, take_ge by lia.
    symmetry. apply filter_keeps_all.
    apply find_if_end in He.
    eapply Forall_impl; [exact He|]. simpl. intros x ->. reflexivity.
  - pose proof (find_if_le pred v) as Hle.
    destruct (find_if_found pred v) as [x [Hx Hp]]; [lia|].
    apply remove_if_loop_spec; try lia.
    + rewrite (take_S_r _ _ _ Hx), List.filter_app. simpl.
      rewrite Hp. simpl. rewrite app_nil_r.
      symmetry. apply filter_take_find_if.
    + reflexivity.
Qed.

End AlgorithmFacts.

(** ** Sorting *)

Section SortingFacts.
Context {A : Type}.
Variable comp : A -> A -> bool.
Hypothesis comp_swo : strict_weak_ordering comp.

Lemma swo_asym a b : comp a b = true -> comp b a = false.
Proof.
  destruct comp_swo as (Hirr & Htr & _). intros Hab.
  destruct (comp b a) eqn:Hba; [|reflexivity].
  rewrite <- (Hirr a). symmetry. exact (Htr a b a Hab Hba).
Qed.

(** "Not after" is transitive for a strict weak ordering. *)
Lemma swo_not_after_trans a b c :
  comp b a = false -> comp c b = false -> comp c a = false.
Proof.
  destruct comp_swo as (Hirr & Htr & Heq). intros Hba Hcb.
  destruct (comp c a) eqn:Hca; [|reflexivity].
  destruct (comp b c) eqn:Hbc.
  { rewrite (Htr b c a Hbc Hca) in Hba. discriminate. }
  destruct (comp a b) eqn:Hab.
  { rewrite (Htr c a b Hca Hab) in Hcb. discriminate. }
  destruct (Heq a b c Hab Hba Hbc Hcb) as [_ Hca'].
  congruence.
Qed.

Lemma insert_before_perm x v : Permutation (x :: v) (insert_before comp x v).
Proof.
  induction v as [|y v IH]; simpl; [reflexivity|].
  destruct (comp y x); [|reflexivity].
  rewrite perm_swap. constructor. exact IH.
Qed.

Lemma insert_before_sorted x v :
  sorted_wrt comp v -> sorted_wrt comp (insert_before comp x v).
Proof.
  unfold sorted_wrt.
  induction 1 as [|y v Hs IH Hy]; simpl.
  - repeat constructor.
  - destruct (comp y x) eqn:Hyx.
    + constructor; [exact IH|].
      rewrite <- insert_before_perm. constructor; [|exact Hy].
      apply swo_asym, Hyx.
    + constructor; [constructor; assumption|].
      constructor; [exact Hyx|].
      eapply Forall_impl; [exact Hy|]. simpl. intros z Hzy.
      exact (swo_not_after_trans x y z Hyx Hzy).
Qed.

Lemma insertion_sort_perm v : Permutation v (insertion_sort comp v).
Proof.
  induction v as [|x v IH]; simpl; [reflexivity|].
  rewrite <- insert_before_perm. constructor. exact IH.
Qed.

Lemma insertion_sort_sorted v : sorted_wrt comp (insertion_sort comp v).
Proof.
  induction v as [|x v IH]; simpl; [constructor|].
  apply insert_before_sorted, IH.
Qed.

End SortingFacts.

(** The insertion sort and the merge sort are admissible implementations of
    [std::sort]. *)
Lemma insertion_sort_meets_contract (A : Type) :
  std_sort_contract (@insertion_sort A).
Proof.
  intros comp v Hswo. split.
  - apply insertion_sort_perm.
  - apply insertion_sort_sorted, Hswo.
Qed.

Lemma library_merge_sort_meets_contract (A : Type) :
  std_sort_contract (@library_merge_sort A).
Proof.
  intros comp v Hswo. unfold library_merge_sort, sorted_wrt.
  assert (Htrans : Transitive (fun a b : A => comp b a = false)).
  { intros a b c Hab Hbc. exact (swo_not_after_trans comp Hswo a b c Hab Hbc). }
  assert (Htotal : Total (fun a b : A => comp b a = false)).
  { intros a b. destruct (comp b a) eqn:Hba; [|left; reflexivity].
    right. exact (swo_asym comp Hswo b a Hba). }
  split.
  - symmetry. apply merge_sort_Permutation.
  - apply StronglySorted_merge_sort; assumption.
Qed.

(** The comparison of [formCluster] is a strict weak ordering, as
    [std::sort] requires. *)
Lemma by_rssi_desc_swo : strict_weak_ordering ClusterFormation.by_rssi_desc.
Proof.
  unfold ClusterFormation.by_rssi_desc. split; [|split].
  - intros a. apply Qgtb_false, Qle_refl.
  - intros a b c Hab Hbc. apply Qgtb_true in Hab, Hbc. apply Qgtb_true.
    eapply Qlt_trans; eassumption.
  - intros a b c Hab Hba Hbc Hcb.
    apply Qgtb_false in Hab, Hba, Hbc, Hcb.
    split; apply Qgtb_false; eapply Qle_trans; eassumption.
Qed.

Lemma sorted_by_rssi_desc (v : list Device.t) :
  sorted_wrt ClusterFormation.by_rssi_desc v <-> Spec.descending_rssi v.
Proof.
  unfold sorted_wrt, Spec.descending_rssi, ClusterFormation.by_rssi_desc.
  split; intros H; induction H; constructor; try assumption.
  - eapply Forall_impl; [eassumption|]. simpl. intros b Hb.
    apply Qgtb_false, Hb.
  - eapply Forall_impl; [eassumption|]. simpl. intros b Hb.
    apply Qgtb_false, Hb.
Qed.

(** ** Scores *)

Local Open Scope Q_scope.

(** Replaces every [Qmin] and [Qmax] by a fresh number together with its
    defining cases, so that linear arithmetic can finish. *)
Ltac min_max_cases :=
  repeat match goal with
  | |- context [Qmin ?a ?b] =>
      let m := fresh "m" in let E := fresh "E" in
      pose proof (Q.min_spec a b);
      remember (Qmin a b) as m eqn:E in *; clear E
  | |- context [Qmax ?a ?b] =>
      let m := fresh "m" in let E := fresh "E" in
      pose proof (Q.max_spec a b);
      remember (Qmax a b) as m eqn:E in *; clear E
  | _ : context [Qmin ?a ?b] |- _ =>
      let m := fresh "m" in let E := fresh "E" in
      pose proof (Q.min_spec a b);
      remember (Qmin a b) as m eqn:E in *; clear E
  | _ : context [Qmax ?a ?b] |- _ =>
      let m := fresh "m" in let E := fresh "E" in
      pose proof (Q.max_spec a b);
      remember (Qmax a b) as m eqn:E in *; clear E
  end.

(** Division by a constant is multiplication by its computed inverse. *)
Ltac constant_divisions :=
  unfold Qdiv in *;
  repeat match goal with
  | |- context [/ ?c] =>
      let c' := eval vm_compute in (/ c) in change (/ c) with c'
  | H : context [/ ?c] |- _ =>
      let c' := eval vm_compute in (/ c) in change (/ c) with c' in H
  end.

Section ScoreFacts.
Import Device ClusterFormation.

(** Within the documented domains the score is not negative, so it lies
    above the value [-1] from which [electLeader] starts. *)
Lemma leadership_score_nonneg (d : Device.t) :
  Spec.in_documented_domain d -> 0 <= calculateLeadershipScore d.
Proof.
  intros ([Hb0 Hb1] & [Hs0 Hs1] & Hcpu & Hram & Hsto).
  unfold calculateLeadershipScore, calculateCapabilityScore.
  destruct (supports5G d), (supportsWiFi6 d), (supportsWiFi5 d);
    cbv zeta; constant_divisions; min_max_cases; lra.
Qed.

Lemma leadership_score_monotone_set (f : Spec.factor) (x : Q) (d : Device.t) :
  Spec.factor_get f d <= x ->
  calculateLeadershipScore d <= calculateLeadershipScore (Spec.factor_set f x d).
Proof.
  intros Hle.
  unfold calculateLeadershipScore, calculateCapabilityScore.
  destruct f; simpl in *;
    destruct (supports5G d), (supportsWiFi6 d), (supportsWiFi5 d);
    cbv zeta; constant_divisions; min_max_cases; lra.
Qed.

End ScoreFacts.

(** ** Leader election *)

Section ElectionFacts.
Import Device ClusterFormation.

(** The loop either leaves its candidate as it was, every score being at most
    [bestScore], or ends on the first maximum, whose score is above
    [bestScore]. *)
Lemma electLeader_loop_spec (devices : list Device.t) :
  forall i bestCandidate bestScore,
    (electLeader_loop devices i bestCandidate bestScore = bestCandidate /\
     Forall (fun d => calculateLeadershipScore d <= bestScore) devices)
    \/
    (exists k d,
        electLeader_loop devices i bestCandidate bestScore = Some (i + k)%nat /\
        bestScore < calculateLeadershipScore d /\
        Spec.first_maximum devices k d).
Proof.
  induction devices as [|device rest IH]; intros i bestCandidate bestScore.
  - left. split; [reflexivity|constructor].
  - simpl. destruct (Qgtb (calculateLeadershipScore device) bestScore) eqn:Hgt.
    + apply Qgtb_true in Hgt. right.
      destruct (IH (S i) (Some i) (calculateLeadershipScore device))
        as [[-> Hall]|(k & d & -> & Hd & Hk & Hbefore & Hafter)].
      * exists 0%nat, device. rewrite Nat.add_0_r.
        repeat split; try assumption; try reflexivity.
        -- intros j e Hj. lia.
        -- intros [|j] e Hj He; [lia|]. simpl in He.
           rewrite Forall_lookup in Hall. exact (Hall j e He).
      * exists (S k), d. replace (i + S k)%nat with (S i + k)%nat by lia.
        repeat split; try assumption; try reflexivity.
        -- lra.
        -- intros [|j] e Hj He; simpl in He.
           ++ injection He as <-. exact Hd.
           ++ apply (Hbefore j e); [lia|exact He].
        -- intros [|j] e Hj He; [lia|]. simpl in He.
           apply (Hafter j e); [lia|exact He].
    + apply Qgtb_false in Hgt.
      destruct (IH (S i) bestCandidate bestScore)
        as [[-> Hall]|(k & d & -> & Hd & Hk & Hbefore & Hafter)].
      * left. split; [reflexivity|]. constructor; assumption.
      * right. exists (S k), d. replace (i + S k)%nat with (S i + k)%nat by lia.
        repeat split; try assumption; try reflexivity.
        -- intros [|j] e Hj He; simpl in He.
           ++ injection He as <-. lra.
           ++ apply (Hbefore j e); [lia|exact He].
        -- intros [|j] e Hj He; [lia|]. simpl in He.
           apply (Hafter j e); [lia|exact He].
Qed.

(** [electLeader] returns [nullptr] exactly when no score is above [-1]. *)
Lemma electLeader_None (devices : list Device.t) :
  electLeader devices = None <->
  Forall (fun d => calculateLeadershipScore d <= -1) devices.
Proof.
  destruct devices as [|device rest]; [split; [constructor|reflexivity]|].
  unfold electLeader.
  destruct (electLeader_loop_spec (device :: rest) 0 None (-1.0))
    as [[-> Hall]|(k & d & -> & Hd & Hk & _)].
  - split; [intros _|reflexivity].
    eapply Forall_impl; [exact Hall|]. simpl. intros e He. lra.
  - split; [discriminate|]. intros Hall.
    rewrite Forall_lookup in Hall. specialize (Hall k d Hk). simpl in Hall. lra.
Qed.

(** A leader that [electLeader] returns is the first maximum, and its score
    is above [-1]. *)
Lemma electLeader_Some (devices : list Device.t) (k : nat) :
  electLeader devices = Some k ->
  exists d, Spec.first_maximum devices k d /\ -1 < calculateLeadershipScore d.
Proof.
  destruct devices as [|device rest]; [discriminate|].
  unfold electLeader.
  destruct (electLeader_loop_spec (device :: rest) 0 None (-1.0))
    as [[-> Hall]|(k' & d & -> & Hd & Hmax)]; [discriminate|].
  intros [= <-]. exists d. split; [exact Hmax|lra].
Qed.

Lemma electLeader_in_range (devices : list Device.t) (k : nat) :
  electLeader devices = Some k -> (k < length devices)%nat.
Proof.
  intros H. destruct (electLeader_Some _ _ H) as (d & (Hk & _) & _).
  eapply lookup_lt_Some, Hk.
Qed.

End ElectionFacts.

(** ** Summary metrics *)

Section MetricFacts.
Import Device ClusterFormation.

Lemma fold_left_sum (f : Device.t -> Q) (v : list Device.t) :
  forall acc,
    fold_left (fun sum device => sum + f device) v acc
    == acc + Spec.sum (map f v).
Proof.
  induction v as [|x v IH]; intros acc; simpl.
  - lra.
  - rewrite IH. unfold Spec.sum. simpl. lra.
Qed.

Lemma calculateTotalBattery_sum (members : list Device.t) :
  calculateTotalBattery members == Spec.sum (map batteryLevel members).
Proof. unfold calculateTotalBattery. rewrite fold_left_sum. lra. Qed.

Lemma calculateAverageRssi_mean (members : list Device.t) :
  calculateAverageRssi members == Spec.mean (map rssi members).
Proof.
  destruct members as [|d members]; [reflexivity|].
  unfold calculateAverageRssi, Spec.mean.
  rewrite fold_left_sum, length_map. simpl map.
  apply Qmult_comp; [lra|reflexivity].
Qed.

(** Metrics computed from the members are consistent with them. *)
Lemma calculated_metrics_consistent (c : Cluster.t) :
  Cluster.averageRssi c = calculateAverageRssi (Cluster.members c) ->
  Cluster.totalBatteryLevel c = calculateTotalBattery (Cluster.members c) ->
  Spec.metrics_consistent c.
Proof.
  intros Havg Htotal. unfold Spec.metrics_consistent.
  rewrite Havg, Htotal.
  split; [apply calculateAverageRssi_mean|].
  split; [apply calculateTotalBattery_sum|].
  intros ->. split; reflexivity.
Qed.

End MetricFacts.

(** ** [formCluster] *)

Section FormClusterFacts.
Import Device ClusterFormation.
Variable std_sort :
  (Device.t -> Device.t -> bool) -> list Device.t -> list Device.t.

(** The members are the first [maxClusterSize] devices of the sorted
    vector. *)
Lemma truncation_is_take (v : list Device.t) (n : nat) :
  (if (n <? length v)%nat then resize v n else v) = take n v.
Proof.
  unfold resize. destruct (Nat.ltb_spec n (length v)) as [H|H].
  - reflexivity.
  - rewrite take_ge by lia. reflexivity.
Qed.

(** What a returned cluster holds. *)
Lemma formCluster_Returned host devices maxClusterSize c :
  formCluster std_sort host devices maxClusterSize = Returned c ->
  devices <> [] /\
  Cluster.members c = take maxClusterSize (std_sort by_rssi_desc devices) /\
  match electLeader (Cluster.members c) with
  | Some i => Cluster.members c !! i = Some (Cluster.leader c)
  | None => Cluster.members c !! 0%nat = Some (Cluster.leader c)
  end /\
  Cluster.id c = generateClusterId host /\
  Cluster.formationTime c = formation_now host /\
  Cluster.maxSize c = maxClusterSize /\
  Cluster.averageRssi c = calculateAverageRssi (Cluster.members c) /\
  Cluster.totalBatteryLevel c = calculateTotalBattery (Cluster.members c).
Proof.
  unfold formCluster. destruct devices as [|d devices]; [discriminate|].
  rewrite truncation_is_take.
  set (sortedDevices := take maxClusterSize (std_sort by_rssi_desc (d :: devices))).
  destruct (electLeader sortedDevices) as [i|] eqn:Hleader.
  - destruct (sortedDevices !! i) as [l|] eqn:Hl; [|discriminate].
    intros [= <-]. simpl. rewrite Hleader. repeat split; congruence.
  - destruct (sortedDevices !! 0%nat) as [l|] eqn:Hl; [|discriminate].
    intros [= <-]. simpl. rewrite Hleader. repeat split; congruence.
Qed.

Lemma formCluster_leader_member host devices maxClusterSize c :
  formCluster std_sort host devices maxClusterSize = Returned c ->
  Cluster.leader c ∈ Cluster.members c.
Proof.
  intros H. apply formCluster_Returned in H as (_ & _ & Hl & _).
  destruct (electLeader (Cluster.members c)); eapply list_elem_of_lookup_2, Hl.
Qed.

(** With no room in the cluster there is no first device to fall back on. *)
Lemma formCluster_no_room host devices :
  devices <> [] -> formCluster std_sort host devices 0 = Undefined.
Proof.
  unfold formCluster. destruct devices as [|d devices]; [congruence|].
  intros _. rewrite truncation_is_take. reflexivity.
Qed.

Lemma formCluster_empty host maxClusterSize :
  formCluster std_sort host [] maxClusterSize
  = Thrown (invalid_argument "Cannot form cluster with empty device list").
Proof. reflexivity. Qed.

Hypothesis std_sort_meets_contract : std_sort_contract std_sort.

Lemma std_sort_length (v : list Device.t) :
  length (std_sort by_rssi_desc v) = length v.
Proof.
  destruct (std_sort_meets_contract by_rssi_desc v by_rssi_desc_swo) as [Hp _].
  symmetry. apply Permutation_length, Hp.
Qed.

Lemma formCluster_returns host devices maxClusterSize :
  devices <> [] -> (1 <= maxClusterSize)%nat ->
  exists c, formCluster std_sort host devices maxClusterSize = Returned c.
Proof.
  intros Hne Hmax. unfold formCluster.
  destruct devices as [|d devices]; [congruence|].
  rewrite truncation_is_take.
  set (sortedDevices := take maxClusterSize (std_sort by_rssi_desc (d :: devices))).
  assert (Hlen : (0 < length sortedDevices)%nat).
  { unfold sortedDevices. rewrite length_take, std_sort_length. simpl. lia. }
  destruct (electLeader sortedDevices) as [i|] eqn:Hleader.
  - apply electLeader_in_range in Hleader.
    destruct (lookup_lt_is_Some_2 sortedDevices i Hleader) as [l ->]. eauto.
  - destruct (lookup_lt_is_Some_2 sortedDevices 0 Hlen) as [l ->]. eauto.
Qed.

Lemma formCluster_size host devices maxClusterSize c :
  formCluster std_sort host devices maxClusterSize = Returned c ->
  length (Cluster.members c) = Nat.min (length devices) maxClusterSize.
Proof.
  intros H. apply formCluster_Returned in H as (_ & -> & _).
  rewrite length_take, std_sort_length. lia.
Qed.

End FormClusterFacts.

(** ** [optimizeCluster] *)

Section OptimizeClusterFacts.
Import Device ClusterFormation.
Variable MIN_BATTERY_THRESHOLD : Q.

Lemma prune_filter (members : list Device.t) :
  prune MIN_BATTERY_THRESHOLD members
  = List.filter (fun d => negb (low_battery MIN_BATTERY_THRESHOLD d)) members.
Proof.
  unfold prune.
  pose proof (erase_remove_if (low_battery MIN_BATTERY_THRESHOLD) members) as H.
  destruct (remove_if (low_battery MIN_BATTERY_THRESHOLD) members)
    as [moved new_end].
  exact H.
Qed.

(** Pruning keeps the members at or above the threshold. *)
Lemma prune_survivors (members : list Device.t) :
  prune MIN_BATTERY_THRESHOLD members
  = Spec.survivors MIN_BATTERY_THRESHOLD members.
Proof.
  rewrite prune_filter. unfold Spec.survivors, low_battery.
  induction members as [|d members IH]; simpl; [reflexivity|].
  rewrite IH.
  destruct (Qltb (batteryLevel d) MIN_BATTERY_THRESHOLD) eqn:Hlt; simpl.
  - apply Qltb_true in Hlt.
    destruct (Qle_bool MIN_BATTERY_THRESHOLD (batteryLevel d)) eqn:Hle;
      [|reflexivity].
    apply Qle_bool_iff in Hle. lra.
  - apply Qltb_false, Qle_bool_iff in Hlt. rewrite Hlt. reflexivity.
Qed.

Lemma survivors_spec (members : list Device.t) (d : Device.t) :
  d ∈ Spec.survivors MIN_BATTERY_THRESHOLD members <->
  d ∈ members /\ MIN_BATTERY_THRESHOLD <= batteryLevel d.
Proof.
  unfold Spec.survivors.
  rewrite !list_elem_of_In, List.filter_In, Qle_bool_iff. reflexivity.
Qed.

(** The search for the leader among the members fails exactly when no
    member has the leader's id. *)
Lemma leader_search_fails (leader : Device.t) (members : list Device.t) :
  find_if (fun device => String.eqb (id device) (id leader)) members
  = length members
  <-> ~ exists m, m ∈ members /\ id m = id leader.
Proof.
  rewrite find_if_end, Forall_forall. split.
  - intros H (m & Hm & Hid). specialize (H m Hm).
    apply String.eqb_neq in H. contradiction.
  - intros H m Hm. apply String.eqb_neq. intros Hid. apply H. eauto.
Qed.

(** Whether a member has the leader's id is decidable: it is what the
    search of [optimizeCluster] computes. *)
Lemma leader_search_dec (leader : Device.t) (members : list Device.t) :
  (exists m, m ∈ members /\ id m = id leader) \/
  ~ (exists m, m ∈ members /\ id m = id leader).
Proof.
  destruct (Nat.eq_dec
    (find_if (fun device => String.eqb (id device) (id leader)) members)
    (length members)) as [Hend|Hfound].
  - right. apply leader_search_fails, Hend.
  - left.
    pose proof (find_if_le
      (fun device => String.eqb (id device) (id leader)) members) as Hle.
    destruct (find_if_found
      (fun device => String.eqb (id device) (id leader)) members)
      as (m & Hm & Hid); [lia|].
    exists m. split; [eapply list_elem_of_lookup_2, Hm|].
    apply String.eqb_eq, Hid.
Qed.

(** [optimizeCluster] always returns, and this is what the cluster it
    returns holds. *)
Lemma optimizeCluster_Returned (cluster : Cluster.t) :
  exists c,
    optimizeCluster MIN_BATTERY_THRESHOLD cluster = Returned c /\
    Cluster.members c = prune MIN_BATTERY_THRESHOLD (Cluster.members cluster) /\
    Cluster.id c = Cluster.id cluster /\
    Cluster.formationTime c = Cluster.formationTime cluster /\
    Cluster.maxSize c = Cluster.maxSize cluster /\
    Cluster.averageRssi c = calculateAverageRssi (Cluster.members c) /\
    Cluster.totalBatteryLevel c = calculateTotalBattery (Cluster.members c) /\
    ((exists m, m ∈ Cluster.members c /\ id m = id (Cluster.leader cluster)) ->
     Cluster.leader c = Cluster.leader cluster) /\
    (Cluster.members c = [] -> Cluster.leader c = Cluster.leader cluster) /\
    (~ (exists m, m ∈ Cluster.members c /\ id m = id (Cluster.leader cluster)) ->
     Cluster.members c <> [] ->
     match electLeader (Cluster.members c) with
     | Some i => Cluster.members c !! i = Some (Cluster.leader c)
     | None => Cluster.leader c = Cluster.leader cluster
     end).
Proof.
  unfold optimizeCluster.
  set (members := prune MIN_BATTERY_THRESHOLD (Cluster.members cluster)).
  set (leaderIt := find_if _ members).
  destruct (Nat.eqb_spec leaderIt (length members)) as [Hend|Hfound];
    [destruct (Nat.eqb_spec (length members) 0) as [Hempty|Hnonempty]|]; simpl.
  - (* nothing is left *)
    apply nil_length_inv in Hempty.
    eexists. split; [reflexivity|]. simpl.
    repeat split; try reflexivity.
    intros _ Hne. contradiction.
  - (* the leader is gone and members are left: election *)
    apply leader_search_fails in Hend.
    destruct (electLeader members) as [i|] eqn:Hleader.
    + pose proof (electLeader_in_range _ _ Hleader) as Hi.
      destruct (lookup_lt_is_Some_2 members i Hi) as [newLeader HnewLeader].
      rewrite HnewLeader.
      eexists. split; [reflexivity|]. simpl.
      repeat split; try reflexivity.
      * intros Hex. contradiction.
      * intros ->. simpl in Hnonempty. lia.
      * intros _ _. rewrite Hleader. exact HnewLeader.
    + eexists. split; [reflexivity|]. simpl.
      repeat split; try reflexivity.
      intros _ _. rewrite Hleader. reflexivity.
  - (* the leader is still a member *)
    assert (Hex : exists m, m ∈ members /\ id m = id (Cluster.leader cluster)).
    { destruct (leader_search_dec (Cluster.leader cluster) members)
        as [Hex|Hno]; [exact Hex|].
      apply leader_search_fails in Hno. contradiction. }
    eexists. split; [reflexivity|]. simpl.
    repeat split; try reflexivity.
    intros Hno. contradiction.
Qed.

End OptimizeClusterFacts.

(** * The claims *)

Section Claims.
Import Device ClusterFormation.

(** ** Leader among the members *)

(** Evaluates a statement that a sample device lies within the documented
    domains. *)
Ltac in_domain :=
  unfold Spec.in_documented_domain; simpl;
  repeat split; first [vm_compute; discriminate | vm_compute; reflexivity].

(** C1.  The leader of every cluster that [formCluster] returns is one of
    its members.  The leader of a cluster that [optimizeCluster] returns
    with members left is one of them, by identity, when these members lie
    within the documented domains; and so it is, within these domains or
    not, when a member with the id of the leader given is left or some
    member left has a leadership score above the [-1] from which
    [electLeader] starts. *)
Theorem leader_is_member :
  (forall std_sort host devices maxClusterSize c,
      devices <> [] ->
      formCluster std_sort host devices maxClusterSize = Returned c ->
      Cluster.leader c ∈ Cluster.members c /\ Spec.leader_among_members c) /\
  (forall threshold cluster c,
      optimizeCluster threshold cluster = Returned c ->
      Cluster.members c <> [] ->
      Forall Spec.in_documented_domain (Cluster.members c) ->
      Spec.leader_among_members c) /\
  (forall threshold cluster c,
      optimizeCluster threshold cluster = Returned c ->
      (exists m, m ∈ Cluster.members c /\ id m = id (Cluster.leader cluster))
      \/ Exists (fun m => -1 < calculateLeadershipScore m) (Cluster.members c) ->
      Spec.leader_among_members c).
Proof.
  assert (Hopt : forall threshold cluster c,
      optimizeCluster threshold cluster = Returned c ->
      (exists m, m ∈ Cluster.members c /\ id m = id (Cluster.leader cluster))
      \/ Exists (fun m => -1 < calculateLeadershipScore m) (Cluster.members c) ->
      Spec.leader_among_members c).
  { intros threshold cluster c Hc Hcases.
    destruct (optimizeCluster_Returned threshold cluster)
      as (c' & Hc' & _ & _ & _ & _ & _ & _ & Hkept & _ & Helect).
    rewrite Hc in Hc'. injection Hc' as <-.
    unfold Spec.leader_among_members.
    destruct (leader_search_dec (Cluster.leader cluster)
                (Cluster.members c)) as [Hex|Hno].
    - rewrite (Hkept Hex). exact Hex.
    - destruct Hcases as [Hex|Hscore]; [contradiction|].
      assert (Hne : Cluster.members c <> []).
      { intros Hnil. rewrite Hnil in Hscore. inversion Hscore. }
      specialize (Helect Hno Hne).
      destruct (electLeader (Cluster.members c)) as [i|] eqn:Hleader.
      + exists (Cluster.leader c). split; [|reflexivity].
        eapply list_elem_of_lookup_2, Helect.
      + apply electLeader_None in Hleader.
        apply Exists_exists in Hscore as (m & Hm & Hgt).
        rewrite Forall_forall in Hleader. specialize (Hleader m Hm).
        simpl in Hleader. lra. }
  split; [|split].
  - intros std_sort host devices maxClusterSize c _ Hc.
    pose proof (formCluster_leader_member _ _ _ _ _ Hc) as Hin.
    split; [exact Hin|]. exists (Cluster.leader c). split; [exact Hin|reflexivity].
  - intros threshold cluster c Hc Hne Hdom.
    apply (Hopt threshold cluster c Hc). right.
    destruct (Cluster.members c) as [|m members]; [congruence|].
    apply Exists_cons_hd. apply Forall_inv in Hdom.
    apply leadership_score_nonneg in Hdom. lra.
  - exact Hopt.
Qed.

Lemma leader_is_member_witness :
  exists c,
    optimizeCluster 30 Sample.abc = Returned c /\
    Cluster.leader Sample.abc = Sample.B /\
    Cluster.members c = [Sample.A; Sample.C] /\
    Cluster.leader c = Sample.A /\
    Spec.leader_among_members c.
Proof.
  eexists. split; [vm_compute; reflexivity|].
  split; [reflexivity|]. split; [reflexivity|]. split; [reflexivity|].
  eapply (proj1 (proj2 leader_is_member) 30 Sample.abc).
  - vm_compute. reflexivity.
  - discriminate.
  - simpl. repeat (apply Forall_cons; split; [in_domain|]). apply Forall_nil_2.
Defined.

(** ** Proximity order *)

(** C2 (amended).  The members of a cluster that [formCluster] returns are
    in descending order of rssi and are the devices of strongest signal:
    the input is a rearrangement of the members followed by devices none of
    which is stronger than a member.  The order of members of equal rssi is
    the one [std::sort] leaves, which its contract does not fix. *)
Theorem members_by_descending_rssi std_sort host devices maxClusterSize c :
  std_sort_contract std_sort ->
  devices <> [] ->
  formCluster std_sort host devices maxClusterSize = Returned c ->
  Spec.descending_rssi (Cluster.members c) /\
  exists rest,
    Permutation devices (Cluster.members c ++ rest) /\
    forall m r, m ∈ Cluster.members c -> r ∈ rest -> rssi r <= rssi m.
Proof.
  intros Hsort _ Hc. apply formCluster_Returned in Hc as (_ & -> & _).
  destruct (Hsort by_rssi_desc devices by_rssi_desc_swo) as [Hp Hs].
  apply sorted_by_rssi_desc in Hs. unfold Spec.descending_rssi in *.
  rewrite <- (take_drop maxClusterSize (std_sort by_rssi_desc devices)) in Hs, Hp.
  apply StronglySorted_app in Hs as (Hcross & Hl & _).
  split; [exact Hl|].
  exists (drop maxClusterSize (std_sort by_rssi_desc devices)).
  split; [exact Hp|].
  intros m r Hm Hr. exact (Hcross m r Hm Hr).
Qed.

Lemma members_by_descending_rssi_witness :
  exists c,
    formCluster insertion_sort Sample.host [Sample.A; Sample.B; Sample.C] 2
    = Returned c /\
    Cluster.members c = [Sample.B; Sample.A] /\
    Spec.descending_rssi (Cluster.members c).
Proof.
  eexists. split; [vm_compute; reflexivity|]. split; [reflexivity|].
  eapply (members_by_descending_rssi insertion_sort Sample.host
            [Sample.A; Sample.B; Sample.C] 2).
  - apply insertion_sort_meets_contract.
  - discriminate.
  - vm_compute. reflexivity.
Defined.

(** C2, as stated, fails.  Of 17 devices of equal rssi, given in the order
    T0, ..., T16, the [std::sort] of libstdc++ makes T8 the first member (the
    median-of-three step swaps it to the front) and T0 the tenth: T8 stands
    before T0 in the members and after it in the input. *)
Lemma ties_not_in_input_order :
  exists c,
    formCluster (@Libstdcxx.sort Device.t) Sample.host (Sample.tied 17) 17
    = Returned c /\
    map id (Cluster.members c)
    = ["T8"; "T16"; "T15"; "T14"; "T13"; "T12"; "T11"; "T10"; "T9";
       "T0"; "T7"; "T6"; "T5"; "T4"; "T3"; "T2"; "T1"] /\
    ~ Spec.ties_in_input_order (Sample.tied 17) (Cluster.members c).
Proof.
  eexists. split; [vm_compute; reflexivity|]. split; [reflexivity|].
  intros Hstable.
  destruct (Hstable 0%nat 9%nat _ _ ltac:(lia) eq_refl eq_refl ltac:(reflexivity))
    as (i' & j' & Hlt & Hi & Hj).
  destruct j' as [|j']; [lia|].
  do 16 (destruct j' as [|j']; [vm_compute in Hj; discriminate Hj|]).
  vm_compute in Hj. discriminate Hj.
Qed.

(** ** Election *)

(** C3.  For every device list within the documented domains, [electLeader]
    returns no leader if and only if the list is empty, and on a non-empty
    list it returns the first maximum: the device whose score is above that
    of every earlier device and not below that of any later one.  It
    returns the first maximum of every list in which at least one device
    lies within the documented domains. *)
Theorem electLeader_first_maximum :
  (forall devices,
      Forall Spec.in_documented_domain devices ->
      (electLeader devices = None <-> devices = []) /\
      (devices <> [] ->
       exists k d,
         electLeader devices = Some k /\ Spec.first_maximum devices k d)) /\
  (forall devices,
      Exists Spec.in_documented_domain devices ->
      exists k d,
        electLeader devices = Some k /\ Spec.first_maximum devices k d).
Proof.
  assert (Hsome : forall devices,
      Exists Spec.in_documented_domain devices ->
      exists k d,
        electLeader devices = Some k /\ Spec.first_maximum devices k d).
  { intros devices Hex.
    destruct (electLeader devices) as [k|] eqn:Hk.
    - destruct (electLeader_Some _ _ Hk) as (d & Hmax & _). eauto.
    - exfalso. apply electLeader_None in Hk.
      apply Exists_exists in Hex as (d & Hd & Hdom).
      rewrite Forall_forall in Hk. specialize (Hk d Hd). simpl in Hk.
      apply leadership_score_nonneg in Hdom. lra. }
  split; [|exact Hsome].
  intros devices Hdom.
  assert (Hne : devices <> [] ->
      exists k d,
        electLeader devices = Some k /\ Spec.first_maximum devices k d).
  { intros Hne. apply Hsome.
    destruct devices as [|d devices]; [congruence|].
    apply Exists_cons_hd. apply Forall_inv in Hdom. exact Hdom. }
  split; [|exact Hne].
  split.
  - intros Hnone. destruct devices as [|d devices]; [reflexivity|].
    destruct Hne as (k & e & Hk & _); [discriminate|]. congruence.
  - intros ->. reflexivity.
Qed.

Lemma electLeader_first_maximum_witness :
  electLeader [Sample.B; Sample.A; Sample.C] = Some 1%nat /\
  exists k d,
    electLeader [Sample.B; Sample.A; Sample.C] = Some k /\
    Spec.first_maximum [Sample.B; Sample.A; Sample.C] k d.
Proof.
  split; [reflexivity|].
  apply (proj1 electLeader_first_maximum [Sample.B; Sample.A; Sample.C]).
  - repeat (apply Forall_cons; split; [in_domain|]). apply Forall_nil_2.
  - discriminate.
Defined.

(** ** Scores *)

(** C4.  The leadership score and the capability score that the code
    computes are the weighted sums of the specification, with one network
    bonus chosen in the order 5G, WiFi 6, WiFi 5. *)
Theorem leadership_score_formula (d : Device.t) :
  calculateLeadershipScore d == Spec.leadership_score d /\
  calculateCapabilityScore d == Spec.capability d.
Proof.
  assert (Hc : calculateCapabilityScore d == Spec.capability d).
  { unfold calculateCapabilityScore, Spec.capability, Spec.network_bonus.
    destruct (supports5G d), (supportsWiFi6 d), (supportsWiFi5 d);
      cbv zeta; constant_divisions; min_max_cases; lra. }
  split; [|exact Hc].
  unfold calculateLeadershipScore, Spec.leadership_score. cbv zeta.
  remember (calculateCapabilityScore d) as c eqn:E1; clear E1.
  remember (Spec.capability d) as c' eqn:E2; clear E2.
  constant_divisions; min_max_cases; lra.
Qed.

(** C8.  The leadership score does not decrease when one of its input
    factors grows and every other field stays as it is. *)
Theorem leadership_score_monotone (f : Spec.factor) (d1 d2 : Device.t) :
  Spec.agree_except f d1 d2 ->
  Spec.factor_get f d1 <= Spec.factor_get f d2 ->
  calculateLeadershipScore d1 <= calculateLeadershipScore d2.
Proof.
  unfold Spec.agree_except. intros -> Hle.
  apply leadership_score_monotone_set.
  destruct f, d1; exact Hle.
Qed.

Lemma leadership_score_monotone_witness :
  Spec.agree_except Spec.BatteryLevel Sample.R Sample.R_charged /\
  batteryLevel Sample.R <= batteryLevel Sample.R_charged /\
  calculateLeadershipScore Sample.R <= calculateLeadershipScore Sample.R_charged.
Proof.
  assert (Hagree : Spec.agree_except Spec.BatteryLevel Sample.R Sample.R_charged)
    by reflexivity.
  assert (Hle : batteryLevel Sample.R <= batteryLevel Sample.R_charged)
    by (vm_compute; discriminate).
  split; [exact Hagree|]. split; [exact Hle|].
  exact (leadership_score_monotone Spec.BatteryLevel Sample.R Sample.R_charged
           Hagree Hle).
Defined.

(** ** Pruning *)

(** C5.  [optimizeCluster] returns, for every cluster, a cluster whose
    members are the input members at or above the battery threshold, in
    their order.  So there are no more members than before, every member
    was one before and is not below the threshold, and when every member
    is below it the cluster returned has no member and both metrics 0. *)
Theorem optimizeCluster_prunes (threshold : Q) (cluster : Cluster.t) :
  exists c,
    optimizeCluster threshold cluster = Returned c /\
    Cluster.members c = Spec.survivors threshold (Cluster.members cluster) /\
    (length (Cluster.members c) <= length (Cluster.members cluster))%nat /\
    (forall d, d ∈ Cluster.members c ->
       d ∈ Cluster.members cluster /\ threshold <= batteryLevel d) /\
    (forall d, batteryLevel d < threshold -> d ∉ Cluster.members c) /\
    (Forall (fun d => batteryLevel d < threshold) (Cluster.members cluster) ->
     Cluster.members c = [] /\
     Cluster.averageRssi c == 0 /\ Cluster.totalBatteryLevel c == 0).
Proof.
  destruct (optimizeCluster_Returned threshold cluster)
    as (c & Hc & Hm & _ & _ & _ & Havg & Htotal & _).
  rewrite prune_survivors in Hm.
  exists c. split; [exact Hc|]. split; [exact Hm|].
  split; [|split; [|split]].
  - rewrite Hm. unfold Spec.survivors. apply List.filter_length_le.
  - intros d Hd. rewrite Hm in Hd. apply survivors_spec in Hd. exact Hd.
  - intros d Hlow Hd. rewrite Hm in Hd. apply survivors_spec in Hd as [_ Hle].
    lra.
  - intros Hall.
    assert (Hnil : Cluster.members c = []).
    { destruct (Cluster.members c) as [|d members] eqn:E; [reflexivity|].
      assert (Hd : d ∈ Spec.survivors threshold (Cluster.members cluster)).
      { rewrite <- Hm. apply list_elem_of_here. }
      apply survivors_spec in Hd as [Hin Hle].
      rewrite Forall_forall in Hall. specialize (Hall d Hin).
      simpl in Hall. lra. }
    rewrite Havg, Htotal, Hnil. repeat split; reflexivity.
Qed.

(** C10.  The cluster that [optimizeCluster] returns has the id, the
    formation time and the maximal size of its argument, and its leader too
    whenever a member with the leader's id is left after pruning. *)
Theorem optimizeCluster_frame (threshold : Q) (cluster c : Cluster.t) :
  optimizeCluster threshold cluster = Returned c ->
  Cluster.id c = Cluster.id cluster /\
  Cluster.formationTime c = Cluster.formationTime cluster /\
  Cluster.maxSize c = Cluster.maxSize cluster /\
  ((exists m, m ∈ Cluster.members c /\ id m = id (Cluster.leader cluster)) ->
   Cluster.leader c = Cluster.leader cluster).
Proof.
  intros Hc.
  destruct (optimizeCluster_Returned threshold cluster)
    as (c' & Hc' & _ & Hid & Htime & Hsize & _ & _ & Hkept & _).
  rewrite Hc in Hc'. injection Hc' as <-.
  repeat split; assumption.
Qed.

(** With the threshold 10 the cluster [Sample.abc] keeps all its members
    and its leader [B], although the member [A] has a higher score. *)
Lemma optimizeCluster_frame_witness :
  exists c,
    optimizeCluster 10 Sample.abc = Returned c /\
    Cluster.members c = [Sample.B; Sample.A; Sample.C] /\
    calculateLeadershipScore Sample.B < calculateLeadershipScore Sample.A /\
    Cluster.id c = Cluster.id Sample.abc /\
    Cluster.formationTime c = Cluster.formationTime Sample.abc /\
    Cluster.maxSize c = Cluster.maxSize Sample.abc /\
    ((exists m, m ∈ Cluster.members c /\ id m = id (Cluster.leader Sample.abc)) ->
     Cluster.leader c = Sample.B).
Proof.
  eexists. split; [vm_compute; reflexivity|]. split; [reflexivity|].
  split; [reflexivity|].
  apply (optimizeCluster_frame 10 Sample.abc).
  vm_compute. reflexivity.
Defined.

(** ** Errors and sizes *)

(** C6.  [formCluster] throws if and only if the device list is empty, and
    what it throws is [std::invalid_argument]; for a non-empty device list
    and a maximal size in its documented domain, the positive integers, it
    returns a cluster; and [optimizeCluster] returns a cluster for every
    argument. *)
Theorem formCluster_fails_on_empty_only :
  (forall std_sort host devices maxClusterSize,
      (exists e, formCluster std_sort host devices maxClusterSize = Thrown e)
      <-> devices = []) /\
  (forall std_sort host maxClusterSize,
      exists what,
        formCluster std_sort host [] maxClusterSize
        = Thrown (invalid_argument what)) /\
  (forall std_sort host devices maxClusterSize,
      std_sort_contract std_sort ->
      devices <> [] -> (1 <= maxClusterSize)%nat ->
      exists c, formCluster std_sort host devices maxClusterSize = Returned c) /\
  (forall threshold cluster,
      exists c, optimizeCluster threshold cluster = Returned c).
Proof.
  split; [|split; [|split]].
  - intros std_sort host devices maxClusterSize. split.
    + intros [e He]. destruct devices as [|d devices]; [reflexivity|].
      destruct maxClusterSize as [|n].
      * rewrite formCluster_no_room in He; [discriminate|discriminate].
      * exfalso. revert He. unfold formCluster.
        destruct (electLeader _); destruct (_ !! _); discriminate.
    + intros ->. eexists. apply formCluster_empty.
  - intros std_sort host maxClusterSize. eexists. apply formCluster_empty.
  - intros std_sort host devices maxClusterSize Hsort.
    apply formCluster_returns, Hsort.
  - intros threshold cluster.
    destruct (optimizeCluster_Returned threshold cluster) as (c & Hc & _).
    eauto.
Qed.

Lemma formCluster_fails_on_empty_only_witness :
  exists c,
    formCluster insertion_sort Sample.host [Sample.A; Sample.B; Sample.C] 1
    = Returned c.
Proof.
  apply (proj1 (proj2 (proj2 formCluster_fails_on_empty_only))).
  - apply insertion_sort_meets_contract.
  - discriminate.
  - lia.
Defined.

(** C7.  For a non-empty device list and a maximal size of at least 1,
    [formCluster] returns a cluster with as many members as there are
    devices, but no more than the maximal size. *)
Theorem formCluster_members_size std_sort host devices maxClusterSize :
  std_sort_contract std_sort ->
  devices <> [] -> (1 <= maxClusterSize)%nat ->
  exists c,
    formCluster std_sort host devices maxClusterSize = Returned c /\
    length (Cluster.members c) = Nat.min (length devices) maxClusterSize.
Proof.
  intros Hsort Hne Hmax.
  destruct (formCluster_returns std_sort Hsort host devices maxClusterSize
              Hne Hmax) as [c Hc].
  exists c. split; [exact Hc|].
  exact (formCluster_size std_sort Hsort _ _ _ _ Hc).
Qed.

Lemma formCluster_members_size_witness :
  exists c,
    formCluster insertion_sort Sample.host [Sample.A; Sample.B; Sample.C] 2
    = Returned c /\
    length (Cluster.members c) = 2%nat.
Proof.
  apply (formCluster_members_size insertion_sort Sample.host
           [Sample.A; Sample.B; Sample.C] 2).
  - apply insertion_sort_meets_contract.
  - discriminate.
  - lia.
Defined.

(** ** Metrics *)

(** C9.  In every cluster that [formCluster] or [optimizeCluster] returns,
    [averageRssi] is the arithmetic mean of the members' rssi and
    [totalBatteryLevel] the sum of the members' battery levels, both 0 when
    there is no member. *)
Theorem metrics_of_members :
  (forall std_sort host devices maxClusterSize c,
      formCluster std_sort host devices maxClusterSize = Returned c ->
      Spec.metrics_consistent c) /\
  (forall threshold cluster c,
      optimizeCluster threshold cluster = Returned c ->
      Spec.metrics_consistent c).
Proof.
  split.
  - intros std_sort host devices maxClusterSize c Hc.
    apply formCluster_Returned in Hc as (_ & _ & _ & _ & _ & _ & Havg & Htotal).
    exact (calculated_metrics_consistent c Havg Htotal).
  - intros threshold cluster c Hc.
    destruct (optimizeCluster_Returned threshold cluster)
      as (c' & Hc' & _ & _ & _ & _ & Havg & Htotal & _).
    rewrite Hc in Hc'. injection Hc' as <-.
    exact (calculated_metrics_consistent c Havg Htotal).
Qed.

Lemma metrics_of_members_witness :
  exists c,
    formCluster insertion_sort Sample.host [Sample.A; Sample.B; Sample.C] 2
    = Returned c /\
    Cluster.averageRssi c == -35 /\
    Cluster.totalBatteryLevel c == 110 /\
    Spec.metrics_consistent c.
Proof.
  eexists. split; [vm_compute; reflexivity|].
  split; [reflexivity|]. split; [reflexivity|].
  eapply (proj1 metrics_of_members insertion_sort Sample.host
            [Sample.A; Sample.B; Sample.C] 2%nat).
  vm_compute. reflexivity.
Defined.

End Claims.

(** * Further properties of the code *)

Section Further.
Import Device ClusterFormation.

(** X1.  [electLeader] returns position [k] exactly when the device there
    is the first maximum and its score is above [-1]; it returns no leader
    exactly when no score is above [-1]. *)
Theorem electLeader_characterised (devices : list Device.t) :
  (forall k,
      electLeader devices = Some k <->
      exists d, Spec.first_maximum devices k d /\ -1 < calculateLeadershipScore d)
  /\
  (electLeader devices = None <->
   Forall (fun d => calculateLeadershipScore d <= -1) devices).
Proof.
  split; [|apply electLeader_None].
  intros k. split; [apply electLeader_Some|].
  intros (d & (Hk & Hbefore & Hafter) & Hscore).
  destruct (electLeader devices) as [k'|] eqn:Hleader.
  - destruct (electLeader_Some _ _ Hleader)
      as (d' & (Hk' & Hbefore' & Hafter') & _).
    destruct (Nat.lt_trichotomy k k') as [Hlt|[->|Hgt]]; [|reflexivity|].
    + pose proof (Hbefore' k d Hlt Hk). pose proof (Hafter k' d' Hlt Hk'). lra.
    + pose proof (Hbefore k' d' Hgt Hk'). pose proof (Hafter' k d Hgt Hk). lra.
  - apply electLeader_None in Hleader.
    rewrite Forall_lookup in Hleader. specialize (Hleader k d Hk).
    simpl in Hleader. lra.
Qed.

(** X2.  Within the documented domains, with an rssi of at most 0, the
    leadership score and the capability score lie between 0 and 1, as the
    comments of the source say. *)
Theorem scores_in_unit_interval (d : Device.t) :
  Spec.in_documented_domain d -> rssi d <= 0 ->
  0 <= calculateLeadershipScore d <= 1 /\
  0 <= calculateCapabilityScore d <= 1.
Proof.
  intros ([Hb0 Hb1] & [Hs0 Hs1] & Hcpu & Hram & Hsto) Hrssi.
  unfold calculateLeadershipScore, calculateCapabilityScore.
  destruct (supports5G d), (supportsWiFi6 d), (supportsWiFi5 d);
    cbv zeta; constant_divisions; min_max_cases; lra.
Qed.

Lemma scores_in_unit_interval_witness :
  0 <= calculateLeadershipScore Sample.A <= 1 /\
  0 <= calculateCapabilityScore Sample.A <= 1.
Proof.
  apply (scores_in_unit_interval Sample.A).
  - vm_compute. repeat split; discriminate.
  - vm_compute. discriminate.
Defined.

(** X3.  A cluster that [formCluster] returns has at most [maxSize]
    members, and [optimizeCluster] keeps it so. *)
Theorem members_within_maxSize :
  (forall std_sort host devices maxClusterSize c,
      formCluster std_sort host devices maxClusterSize = Returned c ->
      (length (Cluster.members c) <= Cluster.maxSize c)%nat) /\
  (forall threshold cluster c,
      optimizeCluster threshold cluster = Returned c ->
      (length (Cluster.members cluster) <= Cluster.maxSize cluster)%nat ->
      (length (Cluster.members c) <= Cluster.maxSize c)%nat).
Proof.
  split.
  - intros std_sort host devices maxClusterSize c Hc.
    apply formCluster_Returned in Hc as (_ & -> & _ & _ & _ & -> & _).
    rewrite length_take. lia.
  - intros threshold cluster c Hc Hle.
    destruct (optimizeCluster_Returned threshold cluster)
      as (c' & Hc' & Hm & _ & _ & Hsize & _).
    rewrite Hc in Hc'. injection Hc' as <-.
    rewrite Hsize, Hm, prune_filter.
    pose proof (List.filter_length_le
      (fun d => negb (low_battery threshold d)) (Cluster.members cluster)).
    lia.
Qed.

Lemma members_within_maxSize_witness :
  exists c,
    formCluster insertion_sort Sample.host [Sample.A; Sample.B; Sample.C] 2
    = Returned c /\
    (length (Cluster.members c) <= Cluster.maxSize c)%nat.
Proof.
  eexists. split; [vm_compute; reflexivity|].
  eapply (proj1 members_within_maxSize insertion_sort Sample.host
            [Sample.A; Sample.B; Sample.C] 2%nat).
  vm_compute. reflexivity.
Defined.

Lemma filter_twice {A : Type} (keep : A -> bool) (v : list A) :
  List.filter keep (List.filter keep v) = List.filter keep v.
Proof.
  induction v as [|x v IH]; [reflexivity|].
  simpl. destruct (keep x) eqn:Hx; [|exact IH].
  simpl. rewrite Hx, IH. reflexivity.
Qed.

Lemma cluster_ext (c1 c2 : Cluster.t) :
  Cluster.id c1 = Cluster.id c2 ->
  Cluster.leader c1 = Cluster.leader c2 ->
  Cluster.members c1 = Cluster.members c2 ->
  Cluster.formationTime c1 = Cluster.formationTime c2 ->
  Cluster.maxSize c1 = Cluster.maxSize c2 ->
  Cluster.averageRssi c1 = Cluster.averageRssi c2 ->
  Cluster.totalBatteryLevel c1 = Cluster.totalBatteryLevel c2 ->
  c1 = c2.
Proof. destruct c1, c2; simpl; intros; subst; reflexivity. Qed.

(** X4.  [optimizeCluster] is idempotent: run on a cluster it returned, it
    returns that cluster. *)
Theorem optimizeCluster_idempotent (threshold : Q) (cluster c : Cluster.t) :
  optimizeCluster threshold cluster = Returned c ->
  optimizeCluster threshold c = Returned c.
Proof.
  intros Hc.
  destruct (optimizeCluster_Returned threshold cluster)
    as (c1 & Hc1 & Hm1 & _ & _ & _ & Havg1 & Htotal1 & Hkept1 & Hempty1 & Helect1).
  rewrite Hc in Hc1. injection Hc1 as <-.
  destruct (optimizeCluster_Returned threshold c)
    as (c2 & Hc2 & Hm2 & Hid2 & Htime2 & Hsize2 & Havg2 & Htotal2
        & Hkept2 & Hempty2 & Helect2).
  rewrite Hc2. f_equal.
  assert (Hm : Cluster.members c2 = Cluster.members c).
  { rewrite Hm2, Hm1, !prune_filter. apply filter_twice. }
  assert (Hleader : Cluster.leader c2 = Cluster.leader c).
  { rewrite Hm in Hkept2, Hempty2, Helect2.
    destruct (leader_search_dec (Cluster.leader c) (Cluster.members c))
      as [Hex|Hno]; [exact (Hkept2 Hex)|].
    destruct (Cluster.members c) as [|m members] eqn:Hmembers;
      [exact (Hempty2 eq_refl)|].
    assert (Hne : m :: members <> []) by discriminate.
    specialize (Helect2 Hno Hne).
    destruct (leader_search_dec (Cluster.leader cluster) (m :: members))
      as [Hex1|Hno1].
    - exfalso. apply Hno. rewrite (Hkept1 Hex1). exact Hex1.
    - specialize (Helect1 Hno1 Hne).
      destruct (electLeader (m :: members)) as [i|]; [|exact Helect2].
      exfalso. apply Hno. exists (Cluster.leader c).
      split; [eapply list_elem_of_lookup_2, Helect1|reflexivity]. }
  apply cluster_ext; try assumption.
  - rewrite Havg2, Havg1, Hm. reflexivity.
  - rewrite Htotal2, Htotal1, Hm. reflexivity.
Qed.

Lemma optimizeCluster_idempotent_witness :
  exists c,
    optimizeCluster 30 Sample.abc = Returned c /\
    optimizeCluster 30 c = Returned c.
Proof.
  eexists. split; [vm_compute; reflexivity|].
  apply (optimizeCluster_idempotent 30 Sample.abc).
  vm_compute. reflexivity.
Defined.

(** X5.  The leader of a cluster that [formCluster] returns is the first
    maximum of the members by leadership score; when no member has a score
    above [-1] it is the first member, the one of strongest signal. *)
Theorem formCluster_leader_elected std_sort host devices maxClusterSize c :
  formCluster std_sort host devices maxClusterSize = Returned c ->
  (exists k,
      Spec.first_maximum (Cluster.members c) k (Cluster.leader c) /\
      -1 < calculateLeadershipScore (Cluster.leader c))
  \/
  (Forall (fun d => calculateLeadershipScore d <= -1) (Cluster.members c) /\
   Cluster.members c !! 0%nat = Some (Cluster.leader c)).
Proof.
  intros Hc. apply formCluster_Returned in Hc as (_ & _ & Hl & _).
  destruct (electLeader (Cluster.members c)) as [i|] eqn:Hleader.
  - left. exists i.
    destruct (electLeader_Some _ _ Hleader) as (d & Hmax & Hscore).
    assert (Hd : d = Cluster.leader c).
    { destruct Hmax as (Hi & _). congruence. }
    subst d. split; assumption.
  - right. split; [apply electLeader_None, Hleader|exact Hl].
Qed.

Lemma formCluster_leader_elected_witness :
  exists c,
    formCluster insertion_sort Sample.host [Sample.A; Sample.B; Sample.C] 2
    = Returned c /\
    Cluster.leader c = Sample.A /\
    ((exists k,
         Spec.first_maximum (Cluster.members c) k (Cluster.leader c) /\
         -1 < calculateLeadershipScore (Cluster.leader c))
     \/
     (Forall (fun d => calculateLeadershipScore d <= -1) (Cluster.members c) /\
      Cluster.members c !! 0%nat = Some (Cluster.leader c))).
Proof.
  eexists. split; [vm_compute; reflexivity|]. split; [reflexivity|].
  eapply (formCluster_leader_elected insertion_sort Sample.host
            [Sample.A; Sample.B; Sample.C] 2).
  vm_compute. reflexivity.
Defined.

(** X6.  When pruning removes every member with the leader's id and leaves
    a member with a score above [-1], the leader that [optimizeCluster]
    returns is the first maximum of the members that are left. *)
Theorem optimizeCluster_reelects (threshold : Q) (cluster c : Cluster.t) :
  optimizeCluster threshold cluster = Returned c ->
  ~ (exists m, m ∈ Cluster.members c /\ id m = id (Cluster.leader cluster)) ->
  Exists (fun m => -1 < calculateLeadershipScore m) (Cluster.members c) ->
  exists k, Spec.first_maximum (Cluster.members c) k (Cluster.leader c).
Proof.
  intros Hc Hno Hscore.
  destruct (optimizeCluster_Returned threshold cluster)
    as (c' & Hc' & _ & _ & _ & _ & _ & _ & _ & _ & Helect).
  rewrite Hc in Hc'. injection Hc' as <-.
  assert (Hne : Cluster.members c <> []).
  { intros Hnil. rewrite Hnil in Hscore. inversion Hscore. }
  specialize (Helect Hno Hne).
  destruct (electLeader (Cluster.members c)) as [i|] eqn:Hleader.
  - exists i. destruct (electLeader_Some _ _ Hleader) as (d & Hmax & _).
    assert (Hd : d = Cluster.leader c).
    { destruct Hmax as (Hi & _). congruence. }
    subst d. exact Hmax.
  - apply electLeader_None in Hleader.
    apply Exists_exists in Hscore as (m & Hm & Hgt).
    rewrite Forall_forall in Hleader. specialize (Hleader m Hm).
    simpl in Hleader. lra.
Qed.

Lemma optimizeCluster_reelects_witness :
  exists c,
    optimizeCluster 30 Sample.abc = Returned c /\
    Cluster.members c = [Sample.A; Sample.C] /\
    Cluster.leader c = Sample.A /\
    exists k, Spec.first_maximum (Cluster.members c) k (Cluster.leader c).
Proof.
  eexists. split; [vm_compute; reflexivity|].
  split; [reflexivity|]. split; [reflexivity|].
  eapply (optimizeCluster_reelects 30 Sample.abc).
  - vm_compute. reflexivity.
  - intros (m & Hin & Hid). apply list_elem_of_In in Hin. simpl in Hin.
    destruct Hin as [<-|[<-|[]]]; discriminate Hid.
  - apply Exists_cons_hd. vm_compute. reflexivity.
Defined.

End Further.

(** * The examples of the specification *)

Section Examples.
Import Device ClusterFormation.

(** Devices [A], [B], [C] and a maximal size of 2: the members are [B],
    [A], and the weighted score makes [A] the leader. *)
Example formCluster_of_three :
  exists c,
    formCluster insertion_sort Sample.host [Sample.A; Sample.B; Sample.C] 2
    = Returned c /\
    Cluster.members c = [Sample.B; Sample.A] /\
    Cluster.leader c = Sample.A /\
    Cluster.id c = "cluster_1700000000000_4242".
Proof. eexists. split; [vm_compute; reflexivity|]. repeat split. Qed.

(** One device of low capability and low battery is the sole member and
    the leader. *)
Example formCluster_of_one :
  exists c,
    formCluster insertion_sort Sample.host [Sample.weak] 5 = Returned c /\
    Cluster.members c = [Sample.weak] /\
    Cluster.leader c = Sample.weak.
Proof. eexists. split; [vm_compute; reflexivity|]. repeat split. Qed.

(** With every member below the threshold, the cluster returned has no
    member, both metrics 0, and the leader it had. *)
Example optimizeCluster_to_empty :
  exists c,
    optimizeCluster 100 Sample.abc = Returned c /\
    Cluster.members c = [] /\
    Cluster.averageRssi c == 0 /\
    Cluster.totalBatteryLevel c == 0 /\
    Cluster.leader c = Sample.B.
Proof. eexists. split; [vm_compute; reflexivity|]. repeat split. Qed.

(** Two devices of equal rssi come back from the [std::sort] of libstdc++
    in the order of the input: ranges of at most 16 elements are sorted by
    insertion alone. *)
Example formCluster_of_two_tied :
  exists c,
    formCluster (@Libstdcxx.sort Device.t) Sample.host [Sample.P; Sample.R] 2
    = Returned c /\
    Cluster.members c = [Sample.P; Sample.R].
Proof. eexists. split; [vm_compute; reflexivity|]. reflexivity. Qed.

(** Outside the documented domains the score can lie below the [-1] from
    which [electLeader] starts: a single device with a connection stability
    of -10 has a score of about -1.8 and is not elected. *)
Example electLeader_outside_domains :
  calculateLeadershipScore Sample.unstable < -1 /\
  electLeader [Sample.unstable] = None.
Proof. split; reflexivity. Qed.

(** A device that supports 5G and WiFi 6 receives the 5G bonus only. *)
Example one_network_bonus :
  Spec.network_bonus
    (Device.mk "N" (-40) 90 0.5 4 4 64 true true true) = 0.2%Q.
Proof. reflexivity. Qed.

End Examples.

(** * Further properties, continued *)

(** ** Cluster identifiers *)

Section IdentifierFacts.
Import Stdlib.Strings.Ascii.
Import ClusterFormation.

Lemma append_String (a : Ascii.ascii) (s t : string) :
  String a s +:+ t = String a (s +:+ t).
Proof. reflexivity. Qed.

(** Two strings without [c], each followed by [c] and a rest, are equal only
    when the parts before and after [c] are. *)
Lemma split_at_first (c : Ascii.ascii) (s1 s2 r1 r2 : string) :
  occurs c s1 = false -> occurs c s2 = false ->
  s1 +:+ String c r1 = s2 +:+ String c r2 ->
  s1 = s2 /\ r1 = r2.
Proof.
  revert s2. induction s1 as [|a s1 IH]; intros [|b s2] H1 H2 Heq.
  - injection Heq as ->. split; reflexivity.
  - rewrite append_String in Heq. injection Heq as <- _.
    simpl in H2. rewrite Ascii.eqb_refl in H2. discriminate.
  - rewrite append_String in Heq. injection Heq as -> _.
    simpl in H1. rewrite Ascii.eqb_refl in H1. discriminate.
  - rewrite !append_String in Heq. injection Heq as -> Heq.
    simpl in H1, H2. apply orb_false_iff in H1 as [_ H1], H2 as [_ H2].
    destruct (IH s2 H1 H2 Heq) as [-> ->]. split; reflexivity.
Qed.

Lemma pretty_N_go_no_underscore (x : N) :
  forall s, occurs "_"%char s = false -> occurs "_"%char (pretty_N_go x s) = false.
Proof.
  induction (N.lt_wf_0 x) as [x _ IH]. intros s Hs.
  destruct (N.eq_dec x 0%N) as [->|Hx].
  - rewrite pretty_N_go_0. exact Hs.
  - rewrite pretty_N_go_step by lia. apply IH.
    + apply N.div_lt; lia.
    + simpl. rewrite Hs.
      unfold pretty_N_char. repeat case_match; reflexivity.
Qed.

(** The decimal notation of an integer has no underscore. *)
Lemma pretty_Z_no_underscore (z : Z) : occurs "_"%char (pretty z) = false.
Proof.
  assert (HN : forall n : N, occurs "_"%char (pretty n) = false).
  { intros n. unfold pretty, pretty_N. case_decide; [reflexivity|].
    apply pretty_N_go_no_underscore. reflexivity. }
  destruct z as [|p|p]; unfold pretty, pretty_Z.
  - reflexivity.
  - apply (HN (Npos p)).
  - rewrite append_String. simpl. apply (HN (Npos p)).
Qed.

(** X7.  The id of a cluster determines the clock reading and the random
    draw it was generated from: two clusters that [formCluster] returns have
    the same id only if both readings agree. *)
Theorem cluster_id_determines_host
    std_sort1 std_sort2 host1 host2 devices1 devices2 max1 max2 c1 c2 :
  formCluster std_sort1 host1 devices1 max1 = Returned c1 ->
  formCluster std_sort2 host2 devices2 max2 = Returned c2 ->
  Cluster.id c1 = Cluster.id c2 ->
  id_timestamp host1 = id_timestamp host2 /\ id_random host1 = id_random host2.
Proof.
  intros H1 H2 Hid.
  apply formCluster_Returned in H1 as (_ & _ & _ & Hid1 & _).
  apply formCluster_Returned in H2 as (_ & _ & _ & Hid2 & _).
  rewrite Hid1, Hid2 in Hid. unfold generateClusterId in Hid.
  apply (inj (String.app "cluster_")) in Hid.
  apply split_at_first in Hid as [Hts Hrnd];
    try apply pretty_Z_no_underscore.
  split; apply (inj pretty); assumption.
Qed.

End IdentifierFacts.

Lemma cluster_id_determines_host_witness :
  id_timestamp Sample.host = id_timestamp Sample.host /\
  id_random Sample.host = id_random Sample.host.
Proof.
  eapply (cluster_id_determines_host insertion_sort (@Libstdcxx.sort Device.t)
            Sample.host Sample.host [Sample.P; Sample.R] [Sample.A] 2 1).
  - vm_compute. reflexivity.
  - vm_compute. reflexivity.
  - reflexivity.
Defined.

(** ** Formation, further *)

Section FormationFacts.
Import Device ClusterFormation.

Lemma rssi_differs_in_distinct (x : Device.t) (v : list Device.t) :
  distinct_rssi (x :: v) -> forall y, y ∈ v -> ~ rssi x == rssi y.
Proof.
  unfold distinct_rssi. simpl. intros Hnd y Hy Heq.
  apply NoDup_cons in Hnd as [Hx _]. apply Hx.
  rewrite (Qred_complete _ _ Heq).
  apply list_elem_of_fmap_2 with (f := fun d => Qred (rssi d)). exact Hy.
Qed.

(** With distinct rssi, descending order is strict. *)
Lemma descending_strict (v : list Device.t) :
  Spec.descending_rssi v -> distinct_rssi v ->
  StronglySorted (fun a b => rssi b < rssi a) v.
Proof.
  unfold Spec.descending_rssi.
  induction 1 as [|x v Hs IH Hx]; intros Hnd; constructor.
  - apply IH. unfold distinct_rssi in *. simpl in Hnd.
    apply NoDup_cons in Hnd as [_ Hnd]. exact Hnd.
  - rewrite Forall_forall in Hx |- *. intros y Hy.
    pose proof (Hx y Hy) as Hle.
    pose proof (rssi_differs_in_distinct x v Hnd y Hy) as Hne.
    apply Qle_lteq in Hle as [Hlt|Heq]; [exact Hlt|].
    exfalso. apply Hne. symmetry. exact Heq.
Qed.

(** A vector has one rearrangement in strictly descending order. *)
Lemma strictly_descending_unique (v1 : list Device.t) :
  forall v2,
    StronglySorted (fun a b => rssi b < rssi a) v1 ->
    StronglySorted (fun a b => rssi b < rssi a) v2 ->
    Permutation v1 v2 -> v1 = v2.
Proof.
  induction v1 as [|x v1 IH]; intros v2 Hs1 Hs2 Hp.
  - apply Permutation_nil in Hp. congruence.
  - destruct v2 as [|y v2].
    { symmetry in Hp. apply Permutation_nil in Hp. discriminate. }
    apply StronglySorted_cons in Hs1 as [Hx Hs1], Hs2 as [Hy Hs2].
    rewrite Forall_forall in Hx, Hy.
    assert (Hxy : x = y).
    { assert (Hin1 : x ∈ y :: v2) by (rewrite <- Hp; apply list_elem_of_here).
      assert (Hin2 : y ∈ x :: v1) by (rewrite Hp; apply list_elem_of_here).
      apply elem_of_cons in Hin1 as [Heq|Hin1]; [exact Heq|].
      apply elem_of_cons in Hin2 as [Heq|Hin2]; [congruence|].
      pose proof (Hy x Hin1). pose proof (Hx y Hin2). lra. }
    subst y. f_equal.
    apply IH; try assumption. eapply Permutation_cons_inv, Hp.
Qed.

(** X8.  When no two devices have the same rssi, what [formCluster] returns
    depends neither on the implementation of [std::sort] nor on the order
    of the devices in the input. *)
Theorem formCluster_determined
    std_sort1 std_sort2 host devices1 devices2 maxClusterSize :
  std_sort_contract std_sort1 -> std_sort_contract std_sort2 ->
  Permutation devices1 devices2 -> distinct_rssi devices1 ->
  formCluster std_sort1 host devices1 maxClusterSize
  = formCluster std_sort2 host devices2 maxClusterSize.
Proof.
  intros Hc1 Hc2 Hp Hnd.
  destruct (Hc1 by_rssi_desc devices1 by_rssi_desc_swo) as [Hp1 Hs1].
  destruct (Hc2 by_rssi_desc devices2 by_rssi_desc_swo) as [Hp2 Hs2].
  assert (Hsorted : std_sort1 by_rssi_desc devices1
                    = std_sort2 by_rssi_desc devices2).
  { apply strictly_descending_unique.
    - apply descending_strict; [apply sorted_by_rssi_desc, Hs1|].
      unfold distinct_rssi in *. rewrite <- Hp1. exact Hnd.
    - apply descending_strict; [apply sorted_by_rssi_desc, Hs2|].
      unfold distinct_rssi in *. rewrite <- Hp2, <- Hp. exact Hnd.
    - rewrite <- Hp1, <- Hp2. exact Hp. }
  unfold formCluster.
  destruct devices1 as [|d1 devices1], devices2 as [|d2 devices2].
  - reflexivity.
  - apply Permutation_nil in Hp. discriminate.
  - symmetry in Hp. apply Permutation_nil in Hp. discriminate.
  - rewrite Hsorted. reflexivity.
Qed.

Lemma formCluster_determined_witness :
  formCluster insertion_sort Sample.host [Sample.A; Sample.B; Sample.C] 2
  = formCluster library_merge_sort Sample.host
      [Sample.C; Sample.A; Sample.B] 2.
Proof.
  apply (formCluster_determined insertion_sort library_merge_sort
           Sample.host [Sample.A; Sample.B; Sample.C]
           [Sample.C; Sample.A; Sample.B] 2).
  - apply insertion_sort_meets_contract.
  - apply library_merge_sort_meets_contract.
  - symmetry. apply (Permutation_cons_append [Sample.A; Sample.B] Sample.C).
  - unfold distinct_rssi. vm_compute.
    repeat (apply NoDup_cons_2;
            [intros H;
             repeat (apply elem_of_cons in H as [H|H]; [discriminate H|]);
             apply elem_of_nil in H; exact H|]).
    apply NoDup_nil_2.
Defined.

(** X9.  [formCluster] invents no device: every member and the leader are
    devices of the input, and when the input fits the maximal size the
    members are a rearrangement of the whole input. *)
Theorem formCluster_from_input std_sort host devices maxClusterSize c :
  std_sort_contract std_sort ->
  formCluster std_sort host devices maxClusterSize = Returned c ->
  (forall m, m ∈ Cluster.members c -> m ∈ devices) /\
  Cluster.leader c ∈ devices /\
  ((length devices <= maxClusterSize)%nat ->
   Permutation devices (Cluster.members c)).
Proof.
  intros Hsort Hc.
  pose proof (formCluster_leader_member _ _ _ _ _ Hc) as Hleader.
  apply formCluster_Returned in Hc as (_ & Hm & _).
  destruct (Hsort by_rssi_desc devices by_rssi_desc_swo) as [Hp _].
  assert (Hsub : forall m, m ∈ Cluster.members c -> m ∈ devices).
  { intros m Hin. rewrite Hm in Hin.
    apply elem_of_take in Hin as (i & Hi & _).
    rewrite Hp. eapply list_elem_of_lookup_2, Hi. }
  split; [exact Hsub|]. split; [apply Hsub, Hleader|].
  intros Hroom. rewrite Hm, take_ge; [exact Hp|].
  rewrite <- (Permutation_length Hp). exact Hroom.
Qed.

Lemma formCluster_from_input_witness :
  exists c,
    formCluster insertion_sort Sample.host [Sample.A; Sample.B; Sample.C] 5
    = Returned c /\
    Cluster.leader c ∈ [Sample.A; Sample.B; Sample.C] /\
    Permutation [Sample.A; Sample.B; Sample.C] (Cluster.members c).
Proof.
  eexists. split; [vm_compute; reflexivity|].
  edestruct (formCluster_from_input insertion_sort Sample.host
               [Sample.A; Sample.B; Sample.C] 5) as (_ & Hleader & Hall).
  - apply insertion_sort_meets_contract.
  - vm_compute. reflexivity.
  - split; [exact Hleader|]. apply Hall. simpl. lia.
Defined.

End FormationFacts.

(** ** Optimisation, further *)

Section OptimisationFacts.
Import Device ClusterFormation.

Lemma filter_descending (keep : Device.t -> bool) (v : list Device.t) :
  Spec.descending_rssi v -> Spec.descending_rssi (List.filter keep v).
Proof.
  unfold Spec.descending_rssi.
  induction 1 as [|x v Hs IH Hx]; simpl; [constructor|].
  destruct (keep x); [|exact IH].
  constructor; [exact IH|].
  rewrite Forall_forall in Hx |- *. intros y Hy.
  apply Hx. apply list_elem_of_In in Hy. apply List.filter_In in Hy as [Hy _].
  apply list_elem_of_In, Hy.
Qed.

(** X10.  A cluster that [formCluster] returned and none of whose members
    is below the threshold is returned unchanged by [optimizeCluster]. *)
Theorem optimizeCluster_keeps_formed
    std_sort host devices maxClusterSize threshold c :
  formCluster std_sort host devices maxClusterSize = Returned c ->
  Forall (fun d => threshold <= batteryLevel d) (Cluster.members c) ->
  optimizeCluster threshold c = Returned c.
Proof.
  intros Hc Hcharged.
  pose proof (formCluster_leader_member _ _ _ _ _ Hc) as Hleader.
  apply formCluster_Returned in Hc as (_ & _ & _ & _ & _ & _ & Havg & Htotal).
  destruct (optimizeCluster_Returned threshold c)
    as (c' & Hc' & Hm & Hid & Htime & Hsize & Havg' & Htotal' & Hkept & _).
  rewrite Hc'. f_equal.
  assert (Hmembers : Cluster.members c' = Cluster.members c).
  { rewrite Hm, prune_survivors. unfold Spec.survivors.
    apply filter_keeps_all. eapply Forall_impl; [exact Hcharged|].
    simpl. intros d Hd. apply Qle_bool_iff, Hd. }
  apply cluster_ext; try assumption.
  - apply Hkept. exists (Cluster.leader c). rewrite Hmembers.
    split; [exact Hleader|reflexivity].
  - rewrite Havg', Hmembers, Havg. reflexivity.
  - rewrite Htotal', Hmembers, Htotal. reflexivity.
Qed.

Lemma optimizeCluster_keeps_formed_witness :
  exists c,
    formCluster insertion_sort Sample.host [Sample.A; Sample.B; Sample.C] 2
    = Returned c /\
    optimizeCluster 20 c = Returned c.
Proof.
  eexists. split; [vm_compute; reflexivity|].
  eapply (optimizeCluster_keeps_formed insertion_sort Sample.host
            [Sample.A; Sample.B; Sample.C] 2 20).
  - vm_compute. reflexivity.
  - simpl. repeat constructor; vm_compute; discriminate.
Defined.

(** X11.  [optimizeCluster] keeps the members in descending order of rssi
    when they were so. *)
Theorem optimizeCluster_keeps_order (threshold : Q) (cluster c : Cluster.t) :
  optimizeCluster threshold cluster = Returned c ->
  Spec.descending_rssi (Cluster.members cluster) ->
  Spec.descending_rssi (Cluster.members c).
Proof.
  intros Hc Hsorted.
  destruct (optimizeCluster_Returned threshold cluster) as (c' & Hc' & Hm & _).
  rewrite Hc in Hc'. injection Hc' as <-.
  rewrite Hm, prune_filter. apply filter_descending, Hsorted.
Qed.

Lemma optimizeCluster_keeps_order_witness :
  exists c,
    optimizeCluster 30 Sample.abc = Returned c /\
    Cluster.members c = [Sample.A; Sample.C] /\
    Spec.descending_rssi (Cluster.members c).
Proof.
  eexists. split; [vm_compute; reflexivity|]. split; [reflexivity|].
  eapply (optimizeCluster_keeps_order 30 Sample.abc).
  - vm_compute. reflexivity.
  - unfold Spec.descending_rssi. simpl.
    repeat constructor; vm_compute; discriminate.
Defined.

(** X12.  The leader that [optimizeCluster] returns is the leader it was
    given, or else a member that is left, not below the threshold, chosen
    when no member that is left has the id of the leader given. *)
Theorem optimizeCluster_leader_choice (threshold : Q) (cluster c : Cluster.t) :
  optimizeCluster threshold cluster = Returned c ->
  Cluster.leader c = Cluster.leader cluster \/
  (Cluster.leader c ∈ Cluster.members c /\
   Cluster.leader c ∈ Cluster.members cluster /\
   threshold <= batteryLevel (Cluster.leader c) /\
   ~ exists m, m ∈ Cluster.members c /\ id m = id (Cluster.leader cluster)).
Proof.
  intros Hc.
  destruct (optimizeCluster_Returned threshold cluster)
    as (c' & Hc' & Hm & _ & _ & _ & _ & _ & Hkept & Hempty & Helect).
  rewrite Hc in Hc'. injection Hc' as <-.
  destruct (leader_search_dec (Cluster.leader cluster) (Cluster.members c))
    as [Hex|Hno]; [left; exact (Hkept Hex)|].
  destruct (Cluster.members c) as [|m members] eqn:Hmembers;
    [left; exact (Hempty eq_refl)|].
  assert (Hne : m :: members <> []) by discriminate.
  specialize (Helect Hno Hne).
  destruct (electLeader (m :: members)) as [i|]; [right|left; exact Helect].
  assert (Hin : Cluster.leader c ∈ m :: members)
    by (eapply list_elem_of_lookup_2, Helect).
  split; [exact Hin|].
  rewrite Hm, prune_survivors in Hin.
  apply survivors_spec in Hin as [Hold Hle].
  repeat split; assumption.
Qed.

Lemma optimizeCluster_leader_choice_witness :
  exists c,
    optimizeCluster 30 Sample.abc = Returned c /\
    Cluster.leader c = Sample.A /\
    (Cluster.leader c = Cluster.leader Sample.abc \/
     (Cluster.leader c ∈ Cluster.members c /\
      Cluster.leader c ∈ Cluster.members Sample.abc /\
      30 <= batteryLevel (Cluster.leader c) /\
      ~ exists m, m ∈ Cluster.members c
                  /\ id m = id (Cluster.leader Sample.abc))).
Proof.
  eexists. split; [vm_compute; reflexivity|]. split; [reflexivity|].
  eapply (optimizeCluster_leader_choice 30 Sample.abc).
  vm_compute. reflexivity.
Defined.

End OptimisationFacts.

(** ** Metrics and scores, further *)

Section MetricBounds.
Import Device ClusterFormation.

Lemma sum_filter_le (f : Device.t -> Q) (keep : Device.t -> bool)
    (v : list Device.t) :
  Forall (fun d => 0 <= f d) v ->
  Spec.sum (map f (List.filter keep v)) <= Spec.sum (map f v).
Proof.
  unfold Spec.sum.
  induction 1 as [|x v Hx _ IH]; simpl; [lra|].
  destruct (keep x); simpl; lra.
Qed.

(** X14.  Pruning does not raise the total: when no member given has a
    negative battery level, the [totalBatteryLevel] that [optimizeCluster]
    returns is at most the total over the members given. *)
Theorem optimizeCluster_total_battery (threshold : Q) (cluster c : Cluster.t) :
  optimizeCluster threshold cluster = Returned c ->
  Forall (fun d => 0 <= batteryLevel d) (Cluster.members cluster) ->
  Cluster.totalBatteryLevel c
  <= calculateTotalBattery (Cluster.members cluster).
Proof.
  intros Hc Hnonneg.
  destruct (optimizeCluster_Returned threshold cluster)
    as (c' & Hc' & Hm & _ & _ & _ & _ & Htotal & _).
  rewrite Hc in Hc'. injection Hc' as <-.
  rewrite Htotal, !calculateTotalBattery_sum.
  rewrite Hm, prune_filter. apply sum_filter_le, Hnonneg.
Qed.

Lemma optimizeCluster_total_battery_witness :
  exists c,
    optimizeCluster 30 Sample.abc = Returned c /\
    Cluster.totalBatteryLevel c == 185 /\
    calculateTotalBattery (Cluster.members Sample.abc) == 205 /\
    Cluster.totalBatteryLevel c
    <= calculateTotalBattery (Cluster.members Sample.abc).
Proof.
  eexists. split; [vm_compute; reflexivity|].
  split; [reflexivity|]. split; [reflexivity|].
  eapply (optimizeCluster_total_battery 30 Sample.abc).
  - vm_compute. reflexivity.
  - simpl. repeat constructor; vm_compute; discriminate.
Defined.

(** X15.  The capability metrics saturate at their caps (8 cores, 16 GB of
    RAM, 512 GB of storage) and the signal at -100: a metric at or above its
    cap can grow further, and an rssi at or below -100 can sink further,
    without any change of the capability or the leadership score. *)
Theorem scores_saturate (d : Device.t) (x : Q) :
  (forall f cap,
      capability_cap f = Some cap ->
      cap <= Spec.factor_get f d -> cap <= x ->
      calculateCapabilityScore (Spec.factor_set f x d)
      == calculateCapabilityScore d /\
      calculateLeadershipScore (Spec.factor_set f x d)
      == calculateLeadershipScore d) /\
  (rssi d <= -100 -> x <= -100 ->
   calculateLeadershipScore (Spec.factor_set Spec.Rssi x d)
   == calculateLeadershipScore d).
Proof.
  split.
  - intros f cap Hcap Hd Hx.
    unfold calculateLeadershipScore, calculateCapabilityScore.
    destruct f; simpl in Hcap; try discriminate;
      injection Hcap as <-; simpl in *;
      destruct (supports5G d), (supportsWiFi6 d), (supportsWiFi5 d);
      cbv zeta; constant_divisions; min_max_cases; split; lra.
  - intros Hd Hx.
    unfold calculateLeadershipScore, calculateCapabilityScore. simpl.
    destruct (supports5G d), (supportsWiFi6 d), (supportsWiFi5 d);
      cbv zeta; constant_divisions; min_max_cases; lra.
Qed.

Lemma scores_saturate_witness :
  calculateLeadershipScore
    (Spec.factor_set Spec.CpuCores 12 Sample.octa)
  == calculateLeadershipScore Sample.octa.
Proof.
  apply (proj1 (scores_saturate Sample.octa 12) Spec.CpuCores 8).
  - reflexivity.
  - vm_compute. discriminate.
  - vm_compute. discriminate.
Defined.

End MetricBounds.

(** ** Composition *)

Section CompositionFacts.
Import Device ClusterFormation.

(** X16.  A larger maximal size only adds devices of weaker signal at the
    end: for the same devices, the members under the larger maximal size
    are the members under the smaller one followed by devices none of which
    has a higher rssi than any of these. *)
Theorem formCluster_members_prefix
    std_sort host1 host2 devices max1 max2 c1 c2 :
  std_sort_contract std_sort ->
  formCluster std_sort host1 devices max1 = Returned c1 ->
  formCluster std_sort host2 devices max2 = Returned c2 ->
  (max1 <= max2)%nat ->
  Cluster.members c1 = take max1 (Cluster.members c2) /\
  exists added,
    Cluster.members c2 = Cluster.members c1 ++ added /\
    forall m a, m ∈ Cluster.members c1 -> a ∈ added -> rssi a <= rssi m.
Proof.
  intros Hsort H1 H2 Hle.
  apply formCluster_Returned in H1 as (_ & Hm1 & _).
  apply formCluster_Returned in H2 as (_ & Hm2 & _).
  assert (Hprefix : Cluster.members c1 = take max1 (Cluster.members c2)).
  { rewrite Hm1, Hm2, take_take. f_equal. lia. }
  split; [exact Hprefix|].
  exists (drop max1 (Cluster.members c2)).
  assert (Happ : Cluster.members c2
                 = Cluster.members c1 ++ drop max1 (Cluster.members c2)).
  { rewrite Hprefix. symmetry. apply take_drop. }
  split; [exact Happ|].
  destruct (Hsort by_rssi_desc devices by_rssi_desc_swo) as [_ Hs].
  apply sorted_by_rssi_desc in Hs. unfold Spec.descending_rssi in Hs.
  rewrite <- (take_drop max2 (std_sort by_rssi_desc devices)) in Hs.
  apply StronglySorted_app in Hs as (_ & Hs & _).
  rewrite <- Hm2, Happ in Hs.
  apply StronglySorted_app in Hs as (Hcross & _ & _).
  intros m a Hm Ha. exact (Hcross m a Hm Ha).
Qed.

Lemma formCluster_members_prefix_witness :
  exists c1 c2,
    formCluster insertion_sort Sample.host [Sample.A; Sample.B; Sample.C] 1
    = Returned c1 /\
    formCluster insertion_sort Sample.host [Sample.A; Sample.B; Sample.C] 2
    = Returned c2 /\
    Cluster.members c1 = [Sample.B] /\
    Cluster.members c2 = [Sample.B; Sample.A] /\
    Cluster.members c1 = take 1 (Cluster.members c2) /\
    exists added,
      Cluster.members c2 = Cluster.members c1 ++ added /\
      forall m a, m ∈ Cluster.members c1 -> a ∈ added -> rssi a <= rssi m.
Proof.
  eexists. eexists. split; [vm_compute; reflexivity|].
  split; [vm_compute; reflexivity|].
  split; [reflexivity|]. split; [reflexivity|].
  eapply (formCluster_members_prefix insertion_sort Sample.host Sample.host
            [Sample.A; Sample.B; Sample.C] 1 2).
  - apply insertion_sort_meets_contract.
  - vm_compute. reflexivity.
  - vm_compute. reflexivity.
  - lia.
Defined.

Lemma survivors_compose (threshold1 threshold2 : Q) (v : list Device.t) :
  threshold1 <= threshold2 ->
  Spec.survivors threshold2 (Spec.survivors threshold1 v)
  = Spec.survivors threshold2 v.
Proof.
  intros Hle. unfold Spec.survivors.
  induction v as [|d v IH]; [reflexivity|]. simpl.
  destruct (Qle_bool threshold2 (batteryLevel d)) eqn:H2d.
  - assert (H1d : Qle_bool threshold1 (batteryLevel d) = true).
    { apply Qle_bool_iff. apply Qle_bool_iff in H2d. lra. }
    rewrite H1d. simpl. rewrite H2d, IH. reflexivity.
  - destruct (Qle_bool threshold1 (batteryLevel d)); simpl;
      [rewrite H2d|]; exact IH.
Qed.

(** X17.  Pruning with a threshold and then with a higher one leaves the
    members that pruning with the higher threshold alone leaves. *)
Theorem optimizeCluster_thresholds_compose
    (threshold1 threshold2 : Q) (cluster c1 c2 : Cluster.t) :
  threshold1 <= threshold2 ->
  optimizeCluster threshold1 cluster = Returned c1 ->
  optimizeCluster threshold2 c1 = Returned c2 ->
  Cluster.members c2 = Spec.survivors threshold2 (Cluster.members cluster).
Proof.
  intros Hle H1 H2.
  destruct (optimizeCluster_Returned threshold1 cluster) as (c & Hc & Hm1 & _).
  rewrite H1 in Hc. injection Hc as <-.
  destruct (optimizeCluster_Returned threshold2 c1) as (c & Hc & Hm2 & _).
  rewrite H2 in Hc. injection Hc as <-.
  rewrite Hm2, Hm1, !prune_survivors. apply survivors_compose, Hle.
Qed.

Lemma optimizeCluster_thresholds_compose_witness :
  exists c1 c2,
    optimizeCluster 30 Sample.abc = Returned c1 /\
    optimizeCluster 92 c1 = Returned c2 /\
    Cluster.members c2 = [Sample.C] /\
    Cluster.members c2 = Spec.survivors 92 (Cluster.members Sample.abc).
Proof.
  eexists. eexists. split; [vm_compute; reflexivity|].
  split; [vm_compute; reflexivity|]. split; [reflexivity|].
  eapply (optimizeCluster_thresholds_compose 30 92 Sample.abc).
  - vm_compute. discriminate.
  - vm_compute. reflexivity.
  - vm_compute. reflexivity.
Defined.

End CompositionFacts.
